(** * PID temperature-control simulation: a shallow embedding

    The development follows the three Python modules of the repository:

    - [pid_controller.py]     -> [Module PIDController]
    - [temperature_system.py] -> [Module TemperatureSystem], [Module Simulation]
                                 and, on binary64 floats, [Module Binary64]
    - [ui_plot.py]            -> [Module Metrics] (the numeric part of
                                 [print_performance]), [Module Fonts]
                                 ([setup_korean_font]) and [main]

    Numbers.  The program computes with Python / NumPy floats (binary64).
    The values it computes are modelled as exact rationals kept in lowest
    terms ([Qc]), so [=] is equality of numbers: a statement over [Qc] gives
    the value a computation returns up to the rounding of binary64.  Where
    the rounding itself settles what the program does, the computation is
    modelled on Rocq's primitive binary64 floats ([Module Binary64]): the
    number of loop iterations [int(sim_time / dt)] of [run_simulation], and
    [TemperatureSystem.update].  [Simulation.run_simulation] takes the
    duration as a rational, [Binary64.run_simulation] as a float, with the
    number of iterations computed as the source computes it; both run the
    same loop, [Simulation.run_steps].  In the [Qc] model infinities and NaN
    are not represented: the two places where NumPy yields a non-finite value
    instead of raising (a scalar division by zero, the mean of an empty
    array) return [None].  A literal such as [0.03] is written
    [Q2Qc (3 # 100)] as a rational, and [0.03] as a float (the nearest
    binary64 number, as in Python).

    Effects.  Python objects that are mutated in place ([self.integral += ...])
    become explicit state passing: an operation takes the object and returns
    the new object together with its result.  Python exceptions are the
    [Raise] results of a small error monad. *)

From Stdlib Require Import QArith Qcanon Qround ZArith List Lia Lqa Bool.
From Stdlib Require Qcabs.
From Stdlib Require Floats.
From Stdlib Require String.
Import ListNotations.
Local Open Scope Qc_scope.

(** ** Exceptions and the error monad *)

Inductive exn : Type :=
| ZeroDivisionError
| IndexError
| ValueError
| OverflowError.

Inductive result (A : Type) : Type :=
| Ok (a : A)
| Raise (e : exn).

Arguments Ok {A} a.
Arguments Raise {A} e.

Definition bind {A B : Type} (m : result A) (k : A -> result B) : result B :=
  match m with
  | Ok a => k a
  | Raise e => Raise e
  end.

Notation "x <- m ;; k" := (bind m (fun x => k))
  (at level 61, m at next level, right associativity).
Notation "' p <- m ;; k" := (bind m (fun x => match x with p => k end))
  (at level 61, p pattern, m at next level, right associativity).

(** Python's [a / b] on floats. *)
Definition py_div (a b : Qc) : result Qc :=
  if Qc_eq_dec b 0 then Raise ZeroDivisionError else Ok (a / b).

(** Python's [int(x)] on a float: truncation toward zero. *)
Definition py_int (x : Qc) : Z := Z.quot (Qnum x) (Zpos (Qden x)).

(** [x <= y] as a Python / NumPy test. *)
Definition Qcleb (x y : Qc) : bool := Qle_bool x y.

Definition Qcmax (x y : Qc) : Qc := if Qclt_le_dec x y then y else x.
Definition Qcmin (x y : Qc) : Qc := if Qclt_le_dec y x then y else x.

(** [np.clip(x, lo, hi)], which is [minimum(hi, maximum(x, lo))]. *)
Definition np_clip (x lo hi : Qc) : Qc := Qcmin hi (Qcmax x lo).

(** ** pid_controller.py *)

Module PIDController.

Record t : Type := mk {
  Kp : Qc;
  Ki : Qc;
  Kd : Qc;
  setpoint : Qc;
  integral : Qc;
  prev_error : Qc
}.

(** [__init__(self, Kp, Ki, Kd, setpoint=0.0)] *)
Definition init (Kp Ki Kd setpoint : Qc) : t :=
  mk Kp Ki Kd setpoint 0 0.

(** [update(self, current_value, dt)]: the new controller and the tuple
    [(output, P, I, D)]. *)
Definition update (self : t) (current_value dt : Qc)
  : result (t * (Qc * Qc * Qc * Qc)) :=
  let error := setpoint self - current_value in
  let P := Kp self * error in
  let integral' := integral self + error * dt in
  let I := Ki self * integral' in
  derivative <-
    (if Qclt_le_dec 0 dt
     then py_div (error - prev_error self) dt
     else Ok 0) ;;
  let D := Kd self * derivative in
  let self' :=
    mk (Kp self) (Ki self) (Kd self) (setpoint self) integral' error in
  let output := P + I + D in
  Ok (self', (output, P, I, D)).

(** [reset(self)] *)
Definition reset (self : t) : t :=
  mk (Kp self) (Ki self) (Kd self) (setpoint self) 0 0.

End PIDController.

(** ** temperature_system.py: the plant *)

Module TemperatureSystem.

Record t : Type := mk {
  temp : Qc;
  ambient : Qc;
  heat_capacity : Qc;
  cooling_rate : Qc
}.

(** [__init__(self, initial_temp=25, ambient_temp=25)].  The local
    [max_temp] it computes is never stored or used. *)
Definition init (initial_temp ambient_temp : Qc) : t :=
  mk initial_temp ambient_temp (Q2Qc 5) (Q2Qc (3 # 100)).

(** [update(self, heater_power, dt)]: the new plant and the returned
    temperature. *)
Definition update (self : t) (heater_power dt : Qc) : result (t * Qc) :=
  heating <- py_div heater_power (heat_capacity self) ;;
  let cooling := cooling_rate self * (temp self - ambient self) in
  let temp' := temp self + (heating - cooling) * dt in
  Ok (mk temp' (ambient self) (heat_capacity self) (cooling_rate self),
      temp').

End TemperatureSystem.

(** ** temperature_system.py: the simulation loop *)

(** The dictionary returned by [run_simulation] and read by
    [print_performance]; its keys are fixed, so it is a record. *)
Module Data.

Record t : Type := mk {
  times : list Qc;
  temperatures : list Qc;
  setpoints : list Qc;
  heater_powers : list Qc;
  p_terms : list Qc;
  i_terms : list Qc;
  d_terms : list Qc;
  Kp : Qc;
  Ki : Qc;
  Kd : Qc
}.

End Data.

Module Simulation.

(** The local variables of [run_simulation] that the loop body reads and
    writes: the two objects and the seven lists. *)
Record locals : Type := mk {
  pid : PIDController.t;
  system : TemperatureSystem.t;
  times : list Qc;
  temperatures : list Qc;
  setpoints : list Qc;
  heater_powers : list Qc;
  p_terms : list Qc;
  i_terms : list Qc;
  d_terms : list Qc
}.

Definition dt : Qc := Q2Qc (1 # 10).

(** One iteration of [for i in range(time_steps)] ([I_] is the source's
    [I], a name Rocq reserves in patterns). *)
Definition body (target_temp : Qc) (i : nat) (v : locals) : result locals :=
  let current_time := Q2Qc (inject_Z (Z.of_nat i)) * dt in
  let current_temp := TemperatureSystem.temp (system v) in
  ' (pid', (control_output, P, I_, D)) <-
    PIDController.update (pid v) current_temp dt ;;
  let heater_power := np_clip control_output 0 (Q2Qc 100) in
  ' (system', new_temp) <-
    TemperatureSystem.update (system v) heater_power dt ;;
  Ok (mk pid' system'
         (times v ++ [current_time])
         (temperatures v ++ [current_temp])
         (setpoints v ++ [target_temp])
         (heater_powers v ++ [heater_power])
         (p_terms v ++ [P])
         (i_terms v ++ [I_])
         (d_terms v ++ [D])).

(** [for i in range: body], stopping at the first exception. *)
Fixpoint for_each (f : nat -> locals -> result locals)
         (range : list nat) (v : locals) : result locals :=
  match range with
  | [] => Ok v
  | i :: rest => v' <- f i v ;; for_each f rest v'
  end.

(** [range(n)]: empty when [n <= 0]. *)
Definition py_range (n : Z) : list nat := seq 0 (Z.to_nat n).

Definition run_simulation (Kp Ki Kd target_temp sim_time : Qc)
  : result Data.t :=
  q <- py_div sim_time dt ;;
  let time_steps := py_int q in
  let pid := PIDController.init Kp Ki Kd target_temp in
  let system := TemperatureSystem.init (Q2Qc 25) (Q2Qc 25) in
  v <- for_each (body target_temp) (py_range time_steps)
                (mk pid system [] [] [] [] [] [] []) ;;
  Ok (Data.mk (times v) (temperatures v) (setpoints v) (heater_powers v)
              (p_terms v) (i_terms v) (d_terms v) Kp Ki Kd).

(** [run_simulation] from the line after [time_steps = int(sim_time / dt)]
    on: the two objects, the loop over [range(time_steps)] and the returned
    dictionary, for a given [time_steps]. *)
Definition run_steps (Kp Ki Kd target_temp : Qc) (time_steps : Z)
  : result Data.t :=
  let pid := PIDController.init Kp Ki Kd target_temp in
  let system := TemperatureSystem.init (Q2Qc 25) (Q2Qc 25) in
  v <- for_each (body target_temp) (py_range time_steps)
                (mk pid system [] [] [] [] [] [] []) ;;
  Ok (Data.mk (times v) (temperatures v) (setpoints v) (heater_powers v)
              (p_terms v) (i_terms v) (d_terms v) Kp Ki Kd).

End Simulation.

(** ** ui_plot.py: the performance metrics *)

Module Metrics.

(** [a - b] on one-dimensional NumPy arrays, with broadcasting: equal
    lengths subtract pointwise, a one-element array is stretched, any other
    pair of shapes is a [ValueError]. *)
Fixpoint sub_pointwise (a b : list Qc) : list Qc :=
  match a, b with
  | x :: a', y :: b' => (x - y) :: sub_pointwise a' b'
  | _, _ => []
  end.

Definition np_sub (a b : list Qc) : result (list Qc) :=
  if Nat.eqb (length a) (length b) then Ok (sub_pointwise a b)
  else match a, b with
       | [x], _ => Ok (map (fun y => x - y) b)
       | _, [y] => Ok (map (fun x => x - y) a)
       | _, _ => Raise ValueError
       end.

(** [arr[0]] on an array or list. *)
Definition index {A : Type} (l : list A) (i : nat) : result A :=
  match nth_error l i with
  | Some x => Ok x
  | None => Raise IndexError
  end.

(** [abs(e) <= tolerance] *)
Definition within (tolerance e : Qc) : bool := Qcleb (Qcabs.Qcabs e) tolerance.

(** The search loop of [print_performance]: the value of
    [steady_state_idx] when the loop over the remaining indices ends
    ([None] when no index triggers the [break]).  [errors[i]] is read only
    for [i < len(errors)]. *)
Fixpoint find_steady (errors : list Qc) (tolerance : Qc) (range : list nat)
  : option nat :=
  match range with
  | [] => None
  | i :: rest =>
      if within tolerance (nth i errors 0) then
        let check_length := Nat.min 50 (length errors - i) in
        if forallb (within tolerance) (firstn check_length (skipn i errors))
        then Some i
        else find_steady errors tolerance rest
      else find_steady errors tolerance rest
  end.

(** Python truth value of [steady_state_idx] in [if steady_state_idx:]:
    [None] and the integer [0] are both false. *)
Definition truthy (idx : option nat) : bool :=
  match idx with
  | Some (S _) => true
  | _ => false
  end.

(** What the settling-time line prints. *)
Inductive settling : Type :=
| SettledAt (time : Qc)
| NotReached.

(** [np.max] of an array: a [ValueError] on an empty one. *)
Definition np_max (l : list Qc) : result Qc :=
  match l with
  | [] => Raise ValueError
  | x :: l' => Ok (fold_left Qcmax l' x)
  end.

(** [np.mean]: NaN ([None]) on an empty array. *)
Definition np_mean (l : list Qc) : option Qc :=
  match l with
  | [] => None
  | _ => Some (fold_right Qcplus 0 l / Q2Qc (inject_Z (Z.of_nat (length l))))
  end.

(** A NumPy scalar division: a zero divisor gives a non-finite value
    ([None]) and a warning, not an exception. *)
Definition np_div (a b : Qc) : option Qc :=
  if Qc_eq_dec b 0 then None else Some (a / b).

(** The numbers [print_performance] prints, in the order it prints them. *)
Record report : Type := mk {
  settling_time : settling;
  overshoot : Qc;
  overshoot_percent : option Qc;
  mse : option Qc
}.

Definition print_performance (data : Data.t) : result report :=
  let times := Data.times data in
  let temps := Data.temperatures data in
  let setpoints := Data.setpoints data in
  errors <- np_sub setpoints temps ;;
  s0 <- index setpoints 0 ;;
  let tolerance := s0 * Q2Qc (2 # 100) in
  let steady_state_idx :=
    find_steady errors tolerance (seq 0 (length errors)) in
  line1 <-
    (if truthy steady_state_idx
     then match steady_state_idx with
          | Some i => t <- index times i ;; Ok (SettledAt t)
          | None => Ok NotReached
          end
     else Ok NotReached) ;;
  m <- np_max temps ;;
  let overshoot := m - s0 in
  let overshoot_percent :=
    option_map (fun q => q * Q2Qc 100) (np_div overshoot s0) in
  let mse := np_mean (map (fun e => e * e) errors) in
  Ok (mk line1 overshoot overshoot_percent mse).

End Metrics.

(** ** Binary64: where rounding decides *)

(** The same source lines on binary64 floats, for the two computations whose
    outcome rounding settles: the number of loop iterations
    [int(sim_time / dt)] of [run_simulation], and [TemperatureSystem.update].
    A decimal literal stands for the nearest binary64 number, as in
    Python. *)
Module Binary64.
Import Floats.
Local Open Scope float_scope.
Set Warnings "-inexact-float".

(** Python's [a / b] on floats. *)
Definition py_div (a b : float) : result float :=
  if b =? 0 then Raise ZeroDivisionError else Ok (a / b).

(** Python's [int(x)] on a float: truncation toward zero; [OverflowError]
    on an infinity and [ValueError] on NaN.  A finite float is
    [(-1)^s * m * 2^e]. *)
Definition py_int (x : float) : result Z :=
  match Prim2SF x with
  | S754_zero _ => Ok 0%Z
  | S754_finite s m e => Ok (cond_Zopp s (Z.shiftl (Z.pos m) e))
  | S754_infinity _ => Raise OverflowError
  | S754_nan => Raise ValueError
  end.

(** [dt = 0.1] *)
Definition dt : float := 0.1.

(** [time_steps = int(sim_time / dt)] *)
Definition time_steps (sim_time : float) : result Z :=
  q <- py_div sim_time dt ;; py_int q.

(** [run_simulation] with the number of iterations computed as the source
    computes it. *)
Definition run_simulation (Kp Ki Kd target_temp : Qc) (sim_time : float)
  : result Data.t :=
  n <- time_steps sim_time ;;
  Simulation.run_steps Kp Ki Kd target_temp n.



(** The rational a finite float stands for. *)
Definition value (x : float) : option Q :=
  match Prim2SF x with
  | S754_zero _ => Some 0%Q
  | S754_finite s m e =>
      Some (inject_Z (cond_Zopp s (Z.pos m)) * Qpower 2 e)%Q
  | S754_infinity _ | S754_nan => None
  end.

(** [TemperatureSystem] of temperature_system.py, field by field and line
    by line as [Module TemperatureSystem] above, on floats. *)
Module TemperatureSystem.

Record t : Type := mk {
  temp : float;
  ambient : float;
  heat_capacity : float;
  cooling_rate : float
}.

Definition init (initial_temp ambient_temp : float) : t :=
  mk initial_temp ambient_temp 5.0 0.03.

Definition update (self : t) (heater_power dt : float) : result (t * float) :=
  heating <- py_div heater_power (heat_capacity self) ;;
  let cooling := cooling_rate self * (temp self - ambient self) in
  let temp' := temp self + (heating - cooling) * dt in
  Ok (mk temp' (ambient self) (heat_capacity self) (cooling_rate self),
      temp').

End TemperatureSystem.



End Binary64.

(** ** Vocabulary of the statements *)

(** The plant after the updates with the given heater powers, in order. *)
Fixpoint plant_after (dt : Qc) (powers : list Qc) (s : TemperatureSystem.t)
  : result TemperatureSystem.t :=
  match powers with
  | [] => Ok s
  | hp :: rest =>
      ' (s', _) <- TemperatureSystem.update s hp dt ;; plant_after dt rest s'
  end.

(** The controller after it was fed the given measurements, in order. *)
Fixpoint controller_after (dt : Qc) (measured : list Qc) (c : PIDController.t)
  : result PIDController.t :=
  match measured with
  | [] => Ok c
  | x :: rest =>
      ' (c', _) <- PIDController.update c x dt ;; controller_after dt rest c'
  end.

(** The seven series of a run, as they grow in the loop and as they are
    returned. *)
Record series : Type := mk_series {
  s_times : list Qc;
  s_temperatures : list Qc;
  s_setpoints : list Qc;
  s_heater_powers : list Qc;
  s_p_terms : list Qc;
  s_i_terms : list Qc;
  s_d_terms : list Qc
}.

Definition series_of_locals (v : Simulation.locals) : series :=
  mk_series (Simulation.times v) (Simulation.temperatures v)
            (Simulation.setpoints v) (Simulation.heater_powers v)
            (Simulation.p_terms v) (Simulation.i_terms v)
            (Simulation.d_terms v).

Definition series_of_data (d : Data.t) : series :=
  mk_series (Data.times d) (Data.temperatures d) (Data.setpoints d)
            (Data.heater_powers d) (Data.p_terms d) (Data.i_terms d)
            (Data.d_terms d).

(** All seven series have [n] entries. *)
Definition series_length (r : series) (n : nat) : Prop :=
  length (s_times r) = n /\ length (s_temperatures r) = n /\
  length (s_setpoints r) = n /\ length (s_heater_powers r) = n /\
  length (s_p_terms r) = n /\ length (s_i_terms r) = n /\
  length (s_d_terms r) = n.

(** The plant and the controller the run starts from. *)
Definition plant0 : TemperatureSystem.t :=
  TemperatureSystem.init (Q2Qc 25) (Q2Qc 25).

Definition controller0 (Kp Ki Kd target_temp : Qc) : PIDController.t :=
  PIDController.init Kp Ki Kd target_temp.

(** Entry [i] of every series belongs to step [i]: the time is [i * dt]; the
    temperature is the one of the plant after the first [i] recorded heater
    powers were applied to it; the controller, having been fed the first [i]
    recorded temperatures, is updated with that temperature and yields the
    recorded [P], [I], [D]; the recorded heater power is the clamped output of
    that update. *)
Definition sample_at (Kp Ki Kd target_temp : Qc) (r : series) (i : nat) : Prop :=
  exists plant_i pid_i pid' output P I_ D,
    plant_after Simulation.dt (firstn i (s_heater_powers r)) plant0
      = Ok plant_i /\
    controller_after Simulation.dt (firstn i (s_temperatures r))
                     (controller0 Kp Ki Kd target_temp) = Ok pid_i /\
    PIDController.update pid_i (TemperatureSystem.temp plant_i) Simulation.dt
      = Ok (pid', (output, P, I_, D)) /\
    nth_error (s_times r) i
      = Some (Q2Qc (inject_Z (Z.of_nat i)) * Simulation.dt) /\
    nth_error (s_temperatures r) i = Some (TemperatureSystem.temp plant_i) /\
    nth_error (s_setpoints r) i = Some target_temp /\
    nth_error (s_heater_powers r) i = Some (np_clip output 0 (Q2Qc 100)) /\
    nth_error (s_p_terms r) i = Some P /\
    nth_error (s_i_terms r) i = Some I_ /\
    nth_error (s_d_terms r) i = Some D.

(** What holds of the local variables when [k] iterations are done. *)
Definition loop_inv (Kp Ki Kd target_temp : Qc) (k : nat)
           (v : Simulation.locals) : Prop :=
  series_length (series_of_locals v) k /\
  plant_after Simulation.dt (Simulation.heater_powers v) plant0
    = Ok (Simulation.system v) /\
  controller_after Simulation.dt (Simulation.temperatures v)
                   (controller0 Kp Ki Kd target_temp)
    = Ok (Simulation.pid v) /\
  forall i, (i < k)%nat ->
            sample_at Kp Ki Kd target_temp (series_of_locals v) i.


(** Step [i] of a run records the temperature it reads before it acts:
    temperature [i] of the record is the temperature of the plant after its
    first [i] updates (those with the first [i] recorded heater powers); the
    controller update of step [i] is fed that very temperature, and gives the
    recorded [P = Kp * (target - temperature)], [I], [D] and, clamped, heater
    power [i]. *)
Definition read_before_update_at (Kp Ki Kd target_temp : Qc) (d : Data.t)
           (i : nat) : Prop :=
  exists T plant_i pid_i pid' output P I_ D,
    nth_error (Data.temperatures d) i = Some T /\
    plant_after Simulation.dt (firstn i (Data.heater_powers d)) plant0
      = Ok plant_i /\
    T = TemperatureSystem.temp plant_i /\
    controller_after Simulation.dt (firstn i (Data.temperatures d))
                     (controller0 Kp Ki Kd target_temp) = Ok pid_i /\
    PIDController.update pid_i T Simulation.dt
      = Ok (pid', (output, P, I_, D)) /\
    P = Kp * (target_temp - T) /\
    nth_error (Data.p_terms d) i = Some P /\
    nth_error (Data.i_terms d) i = Some I_ /\
    nth_error (Data.d_terms d) i = Some D /\
    nth_error (Data.heater_powers d) i = Some (np_clip output 0 (Q2Qc 100)).

(** The settling criterion, in the words of the specification: sample [j] is
    in the band when [|setpoint[j] - temperature[j]| <= tolerance], with
    [tolerance = 0.02 * setpoint[0]]. *)
Definition in_band (d : Data.t) (j : nat) : Prop :=
  exists s0 s t,
    nth_error (Data.setpoints d) 0 = Some s0 /\
    nth_error (Data.setpoints d) j = Some s /\
    nth_error (Data.temperatures d) j = Some t /\
    Qcabs.Qcabs (s - t) <= Q2Qc (2 # 100) * s0.

(** Index [i] qualifies: the band holds for the [min(50, remaining)] samples
    that start at [i]. *)
Definition settles_at (d : Data.t) (i : nat) : Prop :=
  (i < length (Data.temperatures d))%nat /\
  forall j,
    (i <= j < i + Nat.min 50 (length (Data.temperatures d) - i))%nat ->
    in_band d j.

Definition first_settling (d : Data.t) (i : nat) : Prop :=
  settles_at d i /\ forall i', (i' < i)%nat -> ~ settles_at d i'.

(** The two nested tests of the search loop at index [i]. *)
Definition steady_b (errors : list Qc) (tolerance : Qc) (i : nat) : bool :=
  Metrics.within tolerance (nth i errors 0)
  && forallb (Metrics.within tolerance)
             (firstn (Nat.min 50 (length errors - i)) (skipn i errors)).

(** ** Further code of the three files *)

(** The local [max_temp] that [TemperatureSystem.__init__] computes from the
    fields it has just set:
    [self.ambient + (100.0 / self.heat_capacity) / self.cooling_rate]. *)
Definition max_temp (self : TemperatureSystem.t) : result Qc :=
  q <- py_div (Q2Qc 100) (TemperatureSystem.heat_capacity self) ;;
  r <- py_div q (TemperatureSystem.cooling_rate self) ;;
  Ok (TemperatureSystem.ambient self + r).

(** The sum of the errors [setpoint - x] over a list of measurements. *)
Definition error_sum (setpoint : Qc) (measured : list Qc) : Qc :=
  fold_right (fun x acc => (setpoint - x) + acc) 0 measured.

(** [main] of ui_plot.py without its printing and plotting: the run with the
    gains it hard-codes, handed to [print_performance]. *)
Definition main : result Metrics.report :=
  data <- Simulation.run_simulation (Q2Qc 5) (Q2Qc (1 # 10)) 1
                                    (Q2Qc 200) (Q2Qc 300) ;;
  Metrics.print_performance data.

(** [setup_korean_font] of ui_plot.py.  What it reads from the outside, the
    value of [platform.system()] and the names in
    [fm.fontManager.ttflist], are arguments; the result is the [font_name]
    it hands to [plt.rc]. *)
Module Fonts.
Import String.
Local Open Scope string_scope.

Definition font_candidates : list string :=
  ["NanumGothic"; "Noto Sans CJK KR"; "Noto Sans KR"; "DejaVu Sans"]%list.

(** [font in available_fonts] *)
Definition installed (available_fonts : list string) (font : string) : bool :=
  existsb (String.eqb font) available_fonts.

(** [for font in candidates: if font in available_fonts: font_name = font;
    break], started with [font_name]. *)
Fixpoint first_installed (candidates available_fonts : list string)
         (font_name : string) : string :=
  match candidates with
  | nil => font_name
  | font :: rest =>
      if installed available_fonts font then font
      else first_installed rest available_fonts font_name
  end.

Definition setup_korean_font (system : string) (available_fonts : list string)
  : string :=
  if String.eqb system "Windows" then "Malgun Gothic"
  else if String.eqb system "Darwin" then "AppleGothic"
  else first_installed font_candidates available_fonts
                       (hd "" font_candidates).

End Fonts.

(** The loop state of a run with target [25] after any number of
    iterations: nothing has moved. *)
Definition at_rest (Kp Ki Kd : Qc) (k : nat) (v : Simulation.locals) : Prop :=
  Simulation.pid v = PIDController.init Kp Ki Kd (Q2Qc 25) /\
  Simulation.system v = plant0 /\
  length (Simulation.times v) = k /\
  length (Simulation.temperatures v) = k /\
  length (Simulation.setpoints v) = k /\
  Forall (eq (Q2Qc 25)) (Simulation.temperatures v) /\
  Forall (eq (Q2Qc 25)) (Simulation.setpoints v) /\
  Forall (eq 0) (Simulation.heater_powers v).

(** The series of [v'] are those of [v] with entries added at the end. *)
Definition extends (v v' : Simulation.locals) : Prop :=
  (exists s, Simulation.times v' = Simulation.times v ++ s) /\
  (exists s, Simulation.temperatures v' = Simulation.temperatures v ++ s) /\
  (exists s, Simulation.setpoints v' = Simulation.setpoints v ++ s) /\
  (exists s, Simulation.heater_powers v' = Simulation.heater_powers v ++ s) /\
  (exists s, Simulation.p_terms v' = Simulation.p_terms v ++ s) /\
  (exists s, Simulation.i_terms v' = Simulation.i_terms v ++ s) /\
  (exists s, Simulation.d_terms v' = Simulation.d_terms v ++ s).

(** The integral and derivative terms recorded at step [i], from the
    recorded temperatures alone: [I] is [Ki] times [dt] times the sum of the
    errors up to and including step [i]; [D] of step [0] is
    [Kd * (target - temperature[0]) / dt] (the previous error starts at [0]),
    and [D] of a later step is [Kd] times the drop of the temperature since
    the step before, over [dt]. *)
Definition terms_at (Ki Kd target_temp : Qc) (d : Data.t) (i : nat) : Prop :=
  exists T,
    nth_error (Data.temperatures d) i = Some T /\
    nth_error (Data.i_terms d) i
    = Some (Ki * (error_sum target_temp (firstn (S i) (Data.temperatures d))
                  * Simulation.dt)) /\
    match i with
    | O =>
        nth_error (Data.d_terms d) 0
        = Some (Kd * ((target_temp - T) / Simulation.dt))
    | S j =>
        exists T_prev,
          nth_error (Data.temperatures d) j = Some T_prev /\
          nth_error (Data.d_terms d) (S j)
          = Some (Kd * ((T_prev - T) / Simulation.dt))
    end.

(** The test of the search loop of [print_performance] at index [i], on the
    error array and the tolerance it has computed: each of the
    [min(50, len(errors) - i)] errors from index [i] on is within the
    tolerance. *)
Definition window_within (errors : list Qc) (tolerance : Qc) (i : nat)
  : Prop :=
  (i < length errors)%nat /\
  forall j,
    (i <= j < i + Nat.min 50 (length errors - i))%nat ->
    Qcabs.Qcabs (nth j errors 0) <= tolerance.

(** * Properties *)

(** ** Arithmetic helpers on [Qc] *)

Lemma Qc_0_lt_dt : 0 < Simulation.dt.
Proof. reflexivity. Qed.

Lemma Qclt_neq_0 (x : Qc) : 0 < x -> x <> 0.
Proof. intros H E. rewrite E in H. discriminate H. Qed.

Lemma Qcmult_pos (x y : Qc) : 0 < x -> 0 < y -> 0 < x * y.
Proof.
  intros Hx Hy.
  rewrite <- (Qcmult_0_l y).
  now apply Qcmult_lt_compat_r.
Qed.

Lemma Qcinv_pos (x : Qc) : 0 < x -> 0 < / x.
Proof.
  intros Hx. unfold Qclt, Qcinv in *. simpl in *.
  rewrite Qred_correct. now apply Qinv_lt_0_compat.
Qed.

Lemma py_div_ok (a b : Qc) : b <> 0 -> py_div a b = Ok (a / b).
Proof.
  intros Hb. unfold py_div. destruct (Qc_eq_dec b 0); [contradiction | reflexivity].
Qed.

Lemma py_div_zero (a : Qc) : py_div a 0 = Raise ZeroDivisionError.
Proof. reflexivity. Qed.

(** ** The controller *)

(** The two branches of [update], as equations. *)
Lemma pid_update_then (c : PIDController.t) (current_value dt : Qc) :
  0 < dt ->
  PIDController.update c current_value dt =
    (let error := PIDController.setpoint c - current_value in
    let integral' := PIDController.integral c + error * dt in
    let P := PIDController.Kp c * error in
    let I_ := PIDController.Ki c * integral' in
    let D := PIDController.Kd c * ((error - PIDController.prev_error c) / dt) in
    Ok (PIDController.mk (PIDController.Kp c) (PIDController.Ki c)
                         (PIDController.Kd c) (PIDController.setpoint c)
                         integral' error,
        (P + I_ + D, P, I_, D))).
Proof.
  intros Hdt. unfold PIDController.update.
  destruct (Qclt_le_dec 0 dt) as [_ | Hle].
  - now rewrite (py_div_ok _ _ (Qclt_neq_0 _ Hdt)).
  - exfalso. exact (Qclt_not_le _ _ Hdt Hle).
Qed.

Lemma pid_update_else (c : PIDController.t) (current_value dt : Qc) :
  dt <= 0 ->
  PIDController.update c current_value dt =
    (let error := PIDController.setpoint c - current_value in
    let integral' := PIDController.integral c + error * dt in
    let P := PIDController.Kp c * error in
    let I_ := PIDController.Ki c * integral' in
    Ok (PIDController.mk (PIDController.Kp c) (PIDController.Ki c)
                         (PIDController.Kd c) (PIDController.setpoint c)
                         integral' error,
        (P + I_ + PIDController.Kd c * 0, P, I_, PIDController.Kd c * 0))).
Proof.
  intros Hdt. unfold PIDController.update.
  destruct (Qclt_le_dec 0 dt) as [Hlt | _].
  - exfalso. exact (Qclt_not_le _ _ Hlt Hdt).
  - reflexivity.
Qed.

(** [update] never raises: the only division is guarded by [dt > 0]. *)
Lemma pid_update_total (c : PIDController.t) (current_value dt : Qc) :
  exists c' o, PIDController.update c current_value dt = Ok (c', o).
Proof.
  destruct (Qclt_le_dec 0 dt) as [Hlt | Hle].
  - rewrite (pid_update_then _ _ _ Hlt). cbv zeta. eauto.
  - rewrite (pid_update_else _ _ _ Hle). cbv zeta. eauto.
Qed.

(** [update] leaves the gains and the setpoint alone. *)
Lemma pid_update_frame (c c' : PIDController.t) (current_value dt : Qc) o :
  PIDController.update c current_value dt = Ok (c', o) ->
  PIDController.Kp c' = PIDController.Kp c /\
  PIDController.Ki c' = PIDController.Ki c /\
  PIDController.Kd c' = PIDController.Kd c /\
  PIDController.setpoint c' = PIDController.setpoint c.
Proof.
  destruct (Qclt_le_dec 0 dt) as [Hlt | Hle].
  - rewrite (pid_update_then _ _ _ Hlt). cbv zeta.
    intros [= <- _]. repeat split.
  - rewrite (pid_update_else _ _ _ Hle). cbv zeta.
    intros [= <- _]. repeat split.
Qed.

(** C3.  For every controller state, every measured value and every
    [dt > 0], [update] returns
    [output = Kp*error + Ki*integral_after + Kd*(error - prev_error_before)/dt]
    with [error = setpoint - current_value] and
    [integral_after = integral_before + error*dt]; afterwards [integral] is
    [integral_after] and [prev_error] is [error]. *)
Theorem pid_update_positive_dt (c : PIDController.t) (current_value dt : Qc) :
  0 < dt ->
  exists c' output P I_ D,
    PIDController.update c current_value dt = Ok (c', (output, P, I_, D)) /\
    output =
      PIDController.Kp c * (PIDController.setpoint c - current_value)
      + PIDController.Ki c
        * (PIDController.integral c
           + (PIDController.setpoint c - current_value) * dt)
      + PIDController.Kd c
        * ((PIDController.setpoint c - current_value)
           - PIDController.prev_error c) / dt /\
    PIDController.integral c' =
      PIDController.integral c
      + (PIDController.setpoint c - current_value) * dt /\
    PIDController.prev_error c' = PIDController.setpoint c - current_value.
Proof.
  intros Hdt.
  pose proof (Qclt_neq_0 _ Hdt) as Hnz.
  unfold PIDController.update.
  destruct (Qclt_le_dec 0 dt) as [_ | Hle].
  - rewrite (py_div_ok _ _ Hnz). cbn [bind].
    do 5 eexists. split; [reflexivity | ].
    cbn [PIDController.integral PIDController.prev_error].
    repeat split. field. exact Hnz.
  - exfalso. exact (Qclt_not_le _ _ Hdt Hle).
Qed.

Lemma pid_update_positive_dt_witness :
  exists c' output P I_ D,
    PIDController.update
      (PIDController.mk (Q2Qc 5) (Q2Qc (1 # 10)) 1 (Q2Qc 200)
                        (Q2Qc (35 # 2)) (Q2Qc 175))
      (Q2Qc 27) (Q2Qc (1 # 10))
    = Ok (c', (output, P, I_, D)) /\
    output = Q2Qc (84848 # 100) /\
    PIDController.integral c' = Q2Qc (348 # 10) /\
    PIDController.prev_error c' = Q2Qc 173.
Proof.
  destruct (pid_update_positive_dt
              (PIDController.mk (Q2Qc 5) (Q2Qc (1 # 10)) 1 (Q2Qc 200)
                                (Q2Qc (35 # 2)) (Q2Qc 175))
              (Q2Qc 27) (Q2Qc (1 # 10)) eq_refl)
    as (c' & output & P & I_ & D & Hu & Ho & Hi & Hp).
  exists c', output, P, I_, D.
  split; [exact Hu | ].
  split; [rewrite Ho; apply Qc_is_canon; reflexivity | ].
  split; [rewrite Hi; apply Qc_is_canon; reflexivity | ].
  rewrite Hp; apply Qc_is_canon; reflexivity.
Defined.

(** C4.  For every controller state, every measured value and every
    [dt <= 0], [update] takes the branch without the division: it returns
    normally (also at [dt = 0]), the derivative term [D] is exactly [0], the
    output is [P + I], [integral] still advances by [error * dt] and
    [prev_error] is overwritten with the current error. *)
Theorem pid_update_nonpositive_dt (c : PIDController.t) (current_value dt : Qc) :
  dt <= 0 ->
  exists c' output P I_ D,
    PIDController.update c current_value dt = Ok (c', (output, P, I_, D)) /\
    D = 0 /\
    output = P + I_ /\
    P = PIDController.Kp c * (PIDController.setpoint c - current_value) /\
    I_ = PIDController.Ki c * PIDController.integral c' /\
    PIDController.integral c' =
      PIDController.integral c
      + (PIDController.setpoint c - current_value) * dt /\
    PIDController.prev_error c' = PIDController.setpoint c - current_value.
Proof.
  intros Hdt.
  unfold PIDController.update.
  destruct (Qclt_le_dec 0 dt) as [Hlt | _].
  - exfalso. exact (Qclt_not_le _ _ Hlt Hdt).
  - cbn [bind].
    do 5 eexists. split; [reflexivity | ].
    cbn [PIDController.integral PIDController.prev_error].
    rewrite Qcmult_0_r, Qcplus_0_r.
    repeat split.
Qed.

Lemma pid_update_nonpositive_dt_witness :
  exists c' output P I_ D,
    PIDController.update (PIDController.init (Q2Qc 5) (Q2Qc (1 # 10)) 1 (Q2Qc 200))
                         (Q2Qc 25) 0
    = Ok (c', (output, P, I_, D)) /\
    D = 0 /\ output = Q2Qc 875 /\
    PIDController.integral c' = 0 /\
    PIDController.prev_error c' = Q2Qc 175.
Proof.
  destruct (pid_update_nonpositive_dt
              (PIDController.init (Q2Qc 5) (Q2Qc (1 # 10)) 1 (Q2Qc 200))
              (Q2Qc 25) 0)
    as (c' & output & P & I_ & D & Hu & HD & Ho & HP & HI & Hi & Hp).
  - discriminate.
  - exists c', output, P, I_, D.
    split; [exact Hu | ].
    split; [exact HD | ].
    split; [rewrite Ho, HP, HI, Hi; apply Qc_is_canon; reflexivity | ].
    split; [rewrite Hi | rewrite Hp]; apply Qc_is_canon; reflexivity.
Defined.

(** C9.  [reset] sets [integral] and [prev_error] to [0] and changes
    nothing else: the gains and the setpoint are the same after the call. *)
Theorem pid_reset_frame (c : PIDController.t) :
  PIDController.integral (PIDController.reset c) = 0 /\
  PIDController.prev_error (PIDController.reset c) = 0 /\
  PIDController.Kp (PIDController.reset c) = PIDController.Kp c /\
  PIDController.Ki (PIDController.reset c) = PIDController.Ki c /\
  PIDController.Kd (PIDController.reset c) = PIDController.Kd c /\
  PIDController.setpoint (PIDController.reset c) = PIDController.setpoint c.
Proof. destruct c. cbn. repeat split. Qed.

(** A reset controller is the freshly constructed one, also after updates. *)
Lemma pid_reset_is_init (c : PIDController.t) :
  PIDController.reset c =
  PIDController.init (PIDController.Kp c) (PIDController.Ki c)
                     (PIDController.Kd c) (PIDController.setpoint c).
Proof. reflexivity. Qed.

Lemma pid_reset_idempotent (c : PIDController.t) :
  PIDController.reset (PIDController.reset c) = PIDController.reset c.
Proof. reflexivity. Qed.

(** ** The plant *)

Lemma plant_update_eq (s : TemperatureSystem.t) (heater_power dt : Qc) :
  TemperatureSystem.heat_capacity s <> 0 ->
  TemperatureSystem.update s heater_power dt =
    (let temp' :=
       TemperatureSystem.temp s
       + (heater_power / TemperatureSystem.heat_capacity s
          - TemperatureSystem.cooling_rate s
            * (TemperatureSystem.temp s - TemperatureSystem.ambient s)) * dt in
     Ok (TemperatureSystem.mk temp' (TemperatureSystem.ambient s)
                              (TemperatureSystem.heat_capacity s)
                              (TemperatureSystem.cooling_rate s),
         temp')).
Proof.
  intros Hc. unfold TemperatureSystem.update. now rewrite (py_div_ok _ _ Hc).
Qed.

(** With a zero heat capacity the division raises. *)
Lemma plant_update_zero_capacity (s : TemperatureSystem.t) (heater_power dt : Qc) :
  TemperatureSystem.heat_capacity s = 0 ->
  TemperatureSystem.update s heater_power dt = Raise ZeroDivisionError.
Proof.
  intros Hc. unfold TemperatureSystem.update. now rewrite Hc, py_div_zero.
Qed.

(** A plant built by the constructor has the fixed heat capacity [5.0]. *)
Lemma plant_init_capacity (initial_temp ambient_temp : Qc) :
  TemperatureSystem.heat_capacity
    (TemperatureSystem.init initial_temp ambient_temp) = Q2Qc 5.
Proof. reflexivity. Qed.

Lemma plant_update_frame (s s' : TemperatureSystem.t) (heater_power dt t : Qc) :
  TemperatureSystem.update s heater_power dt = Ok (s', t) ->
  TemperatureSystem.temp s' = t /\
  TemperatureSystem.ambient s' = TemperatureSystem.ambient s /\
  TemperatureSystem.heat_capacity s' = TemperatureSystem.heat_capacity s /\
  TemperatureSystem.cooling_rate s' = TemperatureSystem.cooling_rate s.
Proof.
  unfold TemperatureSystem.update.
  destruct (py_div heater_power (TemperatureSystem.heat_capacity s));
    cbn [bind]; [ | discriminate].
  intros [= <- <-]. repeat split.
Qed.

(** Over the rationals the equilibrium input
    [heater_power = cooling_rate * heat_capacity * (temp - ambient)] is a
    fixed point of [update]. *)
Lemma plant_equilibrium_exact (s : TemperatureSystem.t) (dt : Qc) :
  TemperatureSystem.heat_capacity s <> 0 ->
  TemperatureSystem.update s
    (TemperatureSystem.cooling_rate s * TemperatureSystem.heat_capacity s
     * (TemperatureSystem.temp s - TemperatureSystem.ambient s)) dt
  = Ok (s, TemperatureSystem.temp s).
Proof.
  intros Hc. rewrite (plant_update_eq _ _ _ Hc). cbv zeta.
  assert (E : TemperatureSystem.temp s
              + (TemperatureSystem.cooling_rate s
                 * TemperatureSystem.heat_capacity s
                 * (TemperatureSystem.temp s - TemperatureSystem.ambient s)
                 / TemperatureSystem.heat_capacity s
                 - TemperatureSystem.cooling_rate s
                   * (TemperatureSystem.temp s - TemperatureSystem.ambient s))
                * dt
              = TemperatureSystem.temp s) by (field; exact Hc).
  rewrite E. destruct s; reflexivity.
Qed.

(** The equilibrium power of the plant at [200] in an ambient of [25] is
    [0.03 * 5 * 175 = 26.25]. *)
Example plant_equilibrium_power :
  TemperatureSystem.cooling_rate (TemperatureSystem.init (Q2Qc 200) (Q2Qc 25))
  * TemperatureSystem.heat_capacity (TemperatureSystem.init (Q2Qc 200) (Q2Qc 25))
  * (Q2Qc 200 - Q2Qc 25) = Q2Qc (2625 # 100).
Proof. apply Qc_is_canon. reflexivity. Qed.

(** Over the rationals [update] is affine in the heater power, with slope
    [dt / heat_capacity], hence strictly increasing. *)
Lemma plant_update_affine_exact (s : TemperatureSystem.t) (dt hp1 hp2 : Qc) :
  0 < TemperatureSystem.heat_capacity s ->
  0 < dt ->
  hp1 < hp2 ->
  exists s1 t1 s2 t2,
    TemperatureSystem.update s hp1 dt = Ok (s1, t1) /\
    TemperatureSystem.update s hp2 dt = Ok (s2, t2) /\
    TemperatureSystem.temp s1 = t1 /\
    TemperatureSystem.temp s2 = t2 /\
    t1 < t2 /\
    t2 - t1 = (hp2 - hp1) * dt / TemperatureSystem.heat_capacity s.
Proof.
  intros Hc Hdt Hhp.
  pose proof (Qclt_neq_0 _ Hc) as Hnz.
  rewrite !(plant_update_eq _ _ _ Hnz). cbv zeta.
  do 4 eexists.
  split; [reflexivity | ]. split; [reflexivity | ].
  split; [reflexivity | ]. split; [reflexivity | ].
  match goal with |- ?a < ?b /\ _ =>
    assert (E : b - a = (hp2 - hp1) * dt / TemperatureSystem.heat_capacity s)
      by (field; exact Hnz);
    split; [apply Qclt_minus_iff; change (0 < b - a); rewrite E | exact E]
  end.
  unfold Qcdiv.
  apply Qcmult_pos; [apply Qcmult_pos | apply Qcinv_pos]; auto.
  now apply Qclt_minus_iff in Hhp.
Qed.

(** ** The clamp *)

Lemma Qcmax_cases (x y : Qc) :
  (x < y /\ Qcmax x y = y) \/ (y <= x /\ Qcmax x y = x).
Proof. unfold Qcmax. destruct (Qclt_le_dec x y); auto. Qed.

Lemma Qcmin_cases (x y : Qc) :
  (y < x /\ Qcmin x y = y) \/ (x <= y /\ Qcmin x y = x).
Proof. unfold Qcmin. destruct (Qclt_le_dec y x); auto. Qed.

Lemma np_clip_cases (x lo hi : Qc) :
  lo <= hi ->
  (x < lo /\ np_clip x lo hi = lo) \/
  (lo <= x <= hi /\ np_clip x lo hi = x) \/
  (hi < x /\ np_clip x lo hi = hi).
Proof.
  intros Hlh. unfold np_clip.
  destruct (Qcmax_cases x lo) as [[H1 ->] | [H1 ->]].
  - left. split; [exact H1 | ].
    destruct (Qcmin_cases hi lo) as [[_ ->] | [H2 ->]]; [reflexivity | ].
    now apply Qcle_antisym.
  - right. destruct (Qcmin_cases hi x) as [[H3 ->] | [H3 ->]].
    + left. split; [split; [exact H1 | now apply Qclt_le_weak] | reflexivity].
    + destruct (Qcle_lt_or_eq _ _ H3) as [Hlt | ->].
      * right. split; [exact Hlt | reflexivity].
      * left. split; [split; [exact H1 | apply Qcle_refl] | reflexivity].
Qed.

Lemma np_clip_range (x lo hi : Qc) :
  lo <= hi -> lo <= np_clip x lo hi <= hi.
Proof.
  intros Hlh.
  destruct (np_clip_cases x lo hi Hlh) as [[_ ->] | [[H ->] | [_ ->]]].
  - split; [apply Qcle_refl | exact Hlh].
  - exact H.
  - split; [exact Hlh | apply Qcle_refl].
Qed.

Lemma Qc_0_le_100 : 0 <= Q2Qc 100.
Proof. discriminate. Qed.

(** ** The simulation loop *)

Lemma plant_after_app (dt : Qc) (l1 l2 : list Qc) (s : TemperatureSystem.t) :
  plant_after dt (l1 ++ l2) s =
  (s' <- plant_after dt l1 s ;; plant_after dt l2 s').
Proof.
  revert s. induction l1 as [ | hp l1 IH]; intros s; cbn; [reflexivity | ].
  destruct (TemperatureSystem.update s hp dt) as [[s' t] | e]; cbn;
    [apply IH | reflexivity].
Qed.

Lemma controller_after_app (dt : Qc) (l1 l2 : list Qc) (c : PIDController.t) :
  controller_after dt (l1 ++ l2) c =
  (c' <- controller_after dt l1 c ;; controller_after dt l2 c').
Proof.
  revert c. induction l1 as [ | x l1 IH]; intros c; cbn; [reflexivity | ].
  destruct (PIDController.update c x dt) as [[c' o] | e]; cbn;
    [apply IH | reflexivity].
Qed.

Lemma plant_after_capacity (dt : Qc) (l : list Qc) (s s' : TemperatureSystem.t) :
  plant_after dt l s = Ok s' ->
  TemperatureSystem.heat_capacity s' = TemperatureSystem.heat_capacity s.
Proof.
  revert s. induction l as [ | hp l IH]; intros s; cbn.
  - now intros [= ->].
  - destruct (TemperatureSystem.update s hp dt) as [[s1 t] | e] eqn:E; cbn;
      [ | discriminate].
    intros H. rewrite (IH _ H).
    now destruct (plant_update_frame _ _ _ _ _ E) as (_ & _ & -> & _).
Qed.

Lemma firstn_snoc_le {A : Type} (l : list A) (x : A) (i : nat) :
  (i <= length l)%nat -> firstn i (l ++ [x]) = firstn i l.
Proof.
  intros Hi. rewrite firstn_app.
  replace (i - length l)%nat with 0%nat by lia.
  cbn. apply app_nil_r.
Qed.

Lemma nth_error_snoc_lt {A : Type} (l : list A) (x : A) (i : nat) :
  (i < length l)%nat -> nth_error (l ++ [x]) i = nth_error l i.
Proof. intros Hi. now apply nth_error_app1. Qed.

Lemma nth_error_snoc_at {A : Type} (l : list A) (x : A) (k : nat) :
  length l = k -> nth_error (l ++ [x]) k = Some x.
Proof.
  intros <-. rewrite nth_error_app2 by lia. now rewrite Nat.sub_diag.
Qed.

Lemma firstn_snoc_all {A : Type} (l : list A) (x : A) (k : nat) :
  length l = k -> firstn k (l ++ [x]) = l.
Proof.
  intros <-. rewrite firstn_snoc_le by lia. apply firstn_all.
Qed.

(** Unfolds the projections of the series records (and nothing else). *)
Ltac series_simpl :=
  cbn [series_of_locals series_of_data
       Simulation.times Simulation.temperatures Simulation.setpoints
       Simulation.heater_powers Simulation.p_terms Simulation.i_terms
       Simulation.d_terms Simulation.pid Simulation.system
       Data.times Data.temperatures Data.setpoints Data.heater_powers
       Data.p_terms Data.i_terms Data.d_terms
       s_times s_temperatures s_setpoints s_heater_powers
       s_p_terms s_i_terms s_d_terms] in *.

(** A loop over [seq a n] that keeps an invariant indexed by the iteration
    number runs to the end. *)
Lemma for_each_seq_inv (J : nat -> Simulation.locals -> Prop)
      (f : nat -> Simulation.locals -> result Simulation.locals) :
  (forall i v, J i v -> exists v', f i v = Ok v' /\ J (S i) v') ->
  forall n a v, J a v ->
  exists v', Simulation.for_each f (seq a n) v = Ok v' /\ J (a + n)%nat v'.
Proof.
  intros Hstep. induction n as [ | n IH]; intros a v Ha; cbn.
  - exists v. now rewrite Nat.add_0_r.
  - destruct (Hstep a v Ha) as (v1 & -> & H1). cbn.
    destruct (IH (S a) v1 H1) as (v' & Hv' & HJ).
    exists v'. split; [exact Hv' | ].
    now replace (a + S n)%nat with (S a + n)%nat by lia.
Qed.

Section Loop.

Variables Kp Ki Kd target_temp : Qc.

Lemma sample_at_snoc (r : series) (k i : nat) (t T sp hp p it d : Qc) :
  series_length r k ->
  (i < k)%nat ->
  sample_at Kp Ki Kd target_temp r i ->
  sample_at Kp Ki Kd target_temp
    (mk_series (s_times r ++ [t]) (s_temperatures r ++ [T])
               (s_setpoints r ++ [sp]) (s_heater_powers r ++ [hp])
               (s_p_terms r ++ [p]) (s_i_terms r ++ [it])
               (s_d_terms r ++ [d])) i.
Proof.
  intros (L1 & L2 & L3 & L4 & L5 & L6 & L7) Hi
         (plant_i & pid_i & pid' & output & P & I_ & D & H).
  exists plant_i, pid_i, pid', output, P, I_, D.
  series_simpl.
  rewrite !firstn_snoc_le by lia.
  rewrite !nth_error_snoc_lt by lia.
  exact H.
Qed.

Lemma loop_inv_init :
  loop_inv Kp Ki Kd target_temp 0
    (Simulation.mk (PIDController.init Kp Ki Kd target_temp)
                   (TemperatureSystem.init (Q2Qc 25) (Q2Qc 25))
                   [] [] [] [] [] [] []).
Proof.
  split; [repeat split | ].
  split; [reflexivity | ].
  split; [reflexivity | ].
  intros i Hi. lia.
Qed.

Lemma loop_inv_body (k : nat) (v : Simulation.locals) :
  loop_inv Kp Ki Kd target_temp k v ->
  exists v', Simulation.body target_temp k v = Ok v' /\
             loop_inv Kp Ki Kd target_temp (S k) v'.
Proof.
  intros (HL & Hplant & Hpid & Hrows).
  pose proof HL as (L1 & L2 & L3 & L4 & L5 & L6 & L7).
  series_simpl.
  assert (Hc : TemperatureSystem.heat_capacity (Simulation.system v) <> 0).
  { rewrite (plant_after_capacity _ _ _ _ Hplant). discriminate. }
  destruct (pid_update_total (Simulation.pid v)
              (TemperatureSystem.temp (Simulation.system v)) Simulation.dt)
    as (pid' & [[[output P] I_] D] & Hu).
  unfold Simulation.body. rewrite Hu. cbn [bind].
  pose proof (plant_update_eq (Simulation.system v)
                (np_clip output 0 (Q2Qc 100)) Simulation.dt Hc) as Hs.
  cbv zeta in Hs. rewrite Hs. cbn [bind].
  eexists. split; [reflexivity | ].
  split; [ | split; [ | split]].
  - unfold series_length. series_simpl.
    rewrite !length_app. cbn [length]. repeat split; lia.
  - series_simpl.
    rewrite plant_after_app, Hplant. cbn [bind plant_after].
    rewrite Hs. reflexivity.
  - series_simpl.
    rewrite controller_after_app, Hpid. cbn [bind controller_after].
    rewrite Hu. reflexivity.
  - intros i Hi.
    assert (Hcase : (i < k)%nat \/ i = k) by lia.
    destruct Hcase as [Hlt | ->].
    + apply (sample_at_snoc (series_of_locals v) k); auto.
    + exists (Simulation.system v), (Simulation.pid v), pid', output, P, I_, D.
      series_simpl.
      rewrite !(firstn_snoc_all _ _ k) by assumption.
      rewrite !(nth_error_snoc_at _ _ k) by assumption.
      repeat split; assumption.
Qed.

End Loop.

(** [int(x)] and [floor(x)] give the same number of iterations. *)
Lemma py_int_floor_nonneg (x : Qc) : 0 <= x -> py_int x = Qfloor x.
Proof.
  intros Hx. unfold py_int, Qfloor. destruct x as [[n d] Hc]. cbn in *.
  unfold Qcle, Qle in Hx. cbn in Hx.
  apply Z.quot_div_nonneg; lia.
Qed.

Lemma py_int_floor_steps (x : Qc) : Z.to_nat (py_int x) = Z.to_nat (Qfloor x).
Proof.
  destruct (Qclt_le_dec x 0) as [Hneg | Hpos].
  - unfold py_int, Qfloor. destruct x as [[n d] Hc]. cbn in *.
    unfold Qclt, Qlt in Hneg. cbn in Hneg.
    assert (Hn : (n < 0)%Z) by lia.
    assert (H1 : (n ÷ Z.pos d <= 0)%Z).
    { rewrite <- (Z.opp_involutive n), Z.quot_opp_l by lia.
      pose proof (Z.quot_pos (- n) (Z.pos d)). lia. }
    assert (H2 : (n / Z.pos d < 0)%Z) by (apply Z.div_lt_upper_bound; lia).
    lia.
  - now rewrite py_int_floor_nonneg.
Qed.

Lemma controller_after_frame (dt : Qc) (l : list Qc) (c c' : PIDController.t) :
  controller_after dt l c = Ok c' ->
  PIDController.Kp c' = PIDController.Kp c /\
  PIDController.setpoint c' = PIDController.setpoint c.
Proof.
  revert c. induction l as [ | x l IH]; intros c; cbn.
  - now intros [= ->].
  - destruct (PIDController.update c x dt) as [[c1 o] | e] eqn:E; cbn;
      [ | discriminate].
    intros H. destruct (IH _ H) as [-> ->].
    now destruct (pid_update_frame _ _ _ _ _ E) as (-> & _ & _ & ->).
Qed.

(** [run_simulation] never raises, and its record satisfies the loop
    invariant at the number of iterations. *)
Lemma run_simulation_spec (Kp Ki Kd target_temp sim_time : Qc) :
  exists d,
    Simulation.run_simulation Kp Ki Kd target_temp sim_time = Ok d /\
    Data.Kp d = Kp /\ Data.Ki d = Ki /\ Data.Kd d = Kd /\
    series_length (series_of_data d)
                  (Z.to_nat (py_int (sim_time / Simulation.dt))) /\
    (exists plant_n,
        plant_after Simulation.dt (Data.heater_powers d) plant0 = Ok plant_n) /\
    forall i, (i < Z.to_nat (py_int (sim_time / Simulation.dt)))%nat ->
              sample_at Kp Ki Kd target_temp (series_of_data d) i.
Proof.
  unfold Simulation.run_simulation.
  rewrite py_div_ok by discriminate. cbn [bind]. unfold Simulation.py_range.
  destruct (for_each_seq_inv (loop_inv Kp Ki Kd target_temp)
              (Simulation.body target_temp)
              (loop_inv_body Kp Ki Kd target_temp)
              (Z.to_nat (py_int (sim_time / Simulation.dt))) 0%nat _
              (loop_inv_init Kp Ki Kd target_temp))
    as (v & Hv & HL & Hplant & Hpid & Hrows).
  rewrite Hv. cbn [bind].
  eexists. split; [reflexivity | ].
  cbn [Data.Kp Data.Ki Data.Kd]. rewrite Nat.add_0_l in *.
  repeat (split; [first [reflexivity | exact HL] | ]).
  split; [ | exact Hrows].
  cbn [Data.heater_powers]. now exists (Simulation.system v).
Qed.

Lemma sample_at_power_range (Kp Ki Kd target_temp : Qc) (r : series) (n : nat) :
  length (s_heater_powers r) = n ->
  (forall i, (i < n)%nat -> sample_at Kp Ki Kd target_temp r i) ->
  Forall (fun hp => 0 <= hp <= Q2Qc 100) (s_heater_powers r).
Proof.
  intros Hlen Hrows. apply Forall_forall. intros hp Hin.
  destruct (In_nth_error _ _ Hin) as [i Hi].
  assert (Hlt : (i < n)%nat).
  { rewrite <- Hlen. apply nth_error_Some. congruence. }
  destruct (Hrows i Hlt)
    as (plant_i & pid_i & pid' & output & P & I_ & D & H).
  destruct H as (_ & _ & _ & _ & _ & _ & Hhp & _).
  rewrite Hi in Hhp. injection Hhp as ->.
  apply np_clip_range, Qc_0_le_100.
Qed.

Lemma firstn_S_nth_error {A : Type} (l : list A) (i : nat) (x : A) :
  nth_error l i = Some x -> firstn (S i) l = firstn i l ++ [x].
Proof.
  revert i. induction l as [ | y l IH]; intros [ | i]; cbn; try discriminate.
  - now intros [= ->].
  - intros H. now rewrite <- (IH _ H).
Qed.

(** [run_steps] never raises, and its record satisfies the loop invariant at
    the number of iterations. *)
Lemma run_steps_spec (Kp Ki Kd target_temp : Qc) (time_steps : Z) :
  exists d,
    Simulation.run_steps Kp Ki Kd target_temp time_steps = Ok d /\
    series_length (series_of_data d) (Z.to_nat time_steps) /\
    forall i, (i < Z.to_nat time_steps)%nat ->
              sample_at Kp Ki Kd target_temp (series_of_data d) i.
Proof.
  unfold Simulation.run_steps, Simulation.py_range.
  destruct (for_each_seq_inv (loop_inv Kp Ki Kd target_temp)
              (Simulation.body target_temp)
              (loop_inv_body Kp Ki Kd target_temp)
              (Z.to_nat time_steps) 0%nat _
              (loop_inv_init Kp Ki Kd target_temp))
    as (v & Hv & HL & _ & _ & Hrows).
  rewrite Hv. cbn [bind].
  eexists. split; [reflexivity | ]. rewrite Nat.add_0_l in *.
  split; [exact HL | exact Hrows].
Qed.

(** [run_simulation] is the loop of [int(sim_time / dt)] iterations. *)
Lemma run_simulation_run_steps (Kp Ki Kd target_temp sim_time : Qc) :
  Simulation.run_simulation Kp Ki Kd target_temp sim_time
  = Simulation.run_steps Kp Ki Kd target_temp
                         (py_int (sim_time / Simulation.dt)).
Proof.
  unfold Simulation.run_simulation. rewrite py_div_ok by discriminate.
  reflexivity.
Qed.

(** A run whose step count [int(sim_time / dt)] is [n] is the loop of [n]
    iterations. *)
Lemma binary64_run_steps (Kp Ki Kd target_temp : Qc)
      (sim_time : PrimFloat.float) (n : Z) :
  Binary64.time_steps sim_time = Ok n ->
  Binary64.run_simulation Kp Ki Kd target_temp sim_time
  = Simulation.run_steps Kp Ki Kd target_temp n.
Proof. intros H. unfold Binary64.run_simulation. now rewrite H. Qed.


Lemma sample_at_read_before (Kp Ki Kd target_temp : Qc) (d : Data.t)
      (i : nat) :
  sample_at Kp Ki Kd target_temp (series_of_data d) i ->
  read_before_update_at Kp Ki Kd target_temp d i.
Proof.
  intros (plant_i & pid_i & pid' & output & P & I_ & D & H).
  series_simpl.
  destruct H as (Hp & Hc & Hu & _ & HT & _ & Hhp & HP & HI & HD).
  exists (TemperatureSystem.temp plant_i), plant_i, pid_i, pid', output,
         P, I_, D.
  repeat (split; [first [assumption | reflexivity] | ]).
  split; [ | auto].
  destruct (controller_after_frame _ _ _ _ Hc) as [EKp Esp].
  cbn in EKp, Esp.
  rewrite (pid_update_then _ _ _ Qc_0_lt_dt) in Hu. cbv zeta in Hu.
  injection Hu as _ _ <- _ _. now rewrite EKp, Esp.
Qed.

Lemma sample_at_first_temperature (Kp Ki Kd target_temp : Qc) (r : series) :
  sample_at Kp Ki Kd target_temp r 0 ->
  nth_error (s_temperatures r) 0 = Some (Q2Qc 25).
Proof.
  intros (plant_i & pid_i & pid' & output & P & I_ & D & H).
  destruct H as (Hp & _ & _ & _ & HT & _).
  cbn in Hp. injection Hp as <-. exact HT.
Qed.



(** C8.  In every run, the temperature recorded at index [i] is the plant
    temperature read before step [i] acts: entry [0] is the initial
    temperature [25], and entry [i] is the temperature of the plant after its
    first [i] updates (those with the first [i] recorded heater powers); the
    controller update of step [i] is fed that very temperature, which gives
    the recorded [P = Kp * (target - temperature)], [I], [D] and, clamped,
    heater power [i].  This holds of the loop for every number of
    iterations, and so of every run, whose number of iterations is
    [int(sim_time / dt)]. *)
Theorem temperature_recorded_before_update :
  (forall (Kp Ki Kd target_temp : Qc) (time_steps : Z),
      exists d,
        Simulation.run_steps Kp Ki Kd target_temp time_steps = Ok d /\
        length (Data.temperatures d) = Z.to_nat time_steps /\
        ((0 < Z.to_nat time_steps)%nat ->
         nth_error (Data.temperatures d) 0 = Some (Q2Qc 25)) /\
        forall i, (i < Z.to_nat time_steps)%nat ->
                  read_before_update_at Kp Ki Kd target_temp d i) /\
  (forall (Kp Ki Kd target_temp : Qc) (sim_time : PrimFloat.float) (n : Z),
      Binary64.time_steps sim_time = Ok n ->
      exists d,
        Binary64.run_simulation Kp Ki Kd target_temp sim_time = Ok d /\
        length (Data.temperatures d) = Z.to_nat n /\
        ((0 < Z.to_nat n)%nat ->
         nth_error (Data.temperatures d) 0 = Some (Q2Qc 25)) /\
        forall i, (i < Z.to_nat n)%nat ->
                  read_before_update_at Kp Ki Kd target_temp d i).
Proof.
  assert (Hloop : forall (Kp Ki Kd target_temp : Qc) (time_steps : Z),
      exists d,
        Simulation.run_steps Kp Ki Kd target_temp time_steps = Ok d /\
        length (Data.temperatures d) = Z.to_nat time_steps /\
        ((0 < Z.to_nat time_steps)%nat ->
         nth_error (Data.temperatures d) 0 = Some (Q2Qc 25)) /\
        forall i, (i < Z.to_nat time_steps)%nat ->
                  read_before_update_at Kp Ki Kd target_temp d i).
  { intros Kp Ki Kd target_temp time_steps.
    destruct (run_steps_spec Kp Ki Kd target_temp time_steps)
      as (d & Hd & HL & Hrows).
    exists d. split; [exact Hd | ]. split; [apply HL | ]. split.
    - intros H0.
      apply (sample_at_first_temperature Kp Ki Kd target_temp
               (series_of_data d)), Hrows, H0.
    - intros i Hi. apply sample_at_read_before, Hrows, Hi. }
  split; [exact Hloop | ].
  intros Kp Ki Kd target_temp sim_time n Hn.
  rewrite (binary64_run_steps _ _ _ _ _ _ Hn). apply Hloop.
Qed.

Lemma temperature_recorded_before_update_witness :
  exists d,
    Binary64.run_simulation (Q2Qc 5) (Q2Qc (1 # 10)) 1 (Q2Qc 200)
                            Binary64.dt = Ok d /\
    length (Data.temperatures d) = 1%nat /\
    nth_error (Data.temperatures d) 0 = Some (Q2Qc 25) /\
    read_before_update_at (Q2Qc 5) (Q2Qc (1 # 10)) 1 (Q2Qc 200) d 0.
Proof.
  destruct (proj2 temperature_recorded_before_update
              (Q2Qc 5) (Q2Qc (1 # 10)) 1 (Q2Qc 200) Binary64.dt 1%Z)
    as (d & Hd & HL & H0 & Hi).
  - vm_compute; reflexivity.
  - exists d. split; [exact Hd | ]. split; [exact HL | ].
    split; [apply H0 | apply Hi]; exact (le_n 1).
Defined.

(** ** Binary64: the step count and the plant under rounding *)

Module Binary64Props.
Import Floats.
Set Warnings "-inexact-float".

















Lemma time_steps_eq (sim_time : float) :
  Binary64.time_steps sim_time = Binary64.py_int (sim_time / 0.1)%float.
Proof. reflexivity. Qed.

(** C7, as stated, fails: the step count is not [floor(simTime / dt)].
    For [sim_time = 0.3] the quotient computed in binary64 is
    [2.9999999999999996] and the run has [2] samples, where
    [floor(0.3 / 0.1) = 3]; for [sim_time = 1.7] the computed quotient is
    rounded up to [17.0] and the count is [17], where the floor of the exact
    quotient of the two floats is [16]. *)
Lemma step_count_not_floor :
  Binary64.time_steps 0.3 = Ok 2%Z /\
  Qfloor (Q2Qc (3 # 10) / Q2Qc (1 # 10))%Qc = 3%Z /\
  (exists d,
      Binary64.run_simulation (Q2Qc 5) (Q2Qc (1 # 10)) 1 (Q2Qc 200) 0.3
      = Ok d /\
      series_length (series_of_data d) 2) /\
  Binary64.time_steps 1.7 = Ok 17%Z /\
  (exists a b,
      Binary64.value 1.7 = Some a /\ Binary64.value 0.1 = Some b /\
      Qfloor (a / b) = 16%Z).
Proof.
  split; [vm_compute; reflexivity | ].
  split; [vm_compute; reflexivity | ].
  split.
  - eexists. split; [vm_compute; reflexivity | ]. repeat split.
  - split; [vm_compute; reflexivity | ].
    do 2 eexists. split; [vm_compute; reflexivity | ].
    split; [vm_compute; reflexivity | ]. vm_compute; reflexivity.
Qed.

(** C7, amended.  The loop of [time_steps] iterations returns seven series
    of [time_steps] entries each (none when [time_steps <= 0]), and entry [i]
    of each belongs to step [i].  The number of iterations of a run is
    [int(sim_time / 0.1)] with the division as binary64 computes it, which is
    not always the floor of the quotient of the numbers.  The run with gains
    [5.0, 0.1, 1.0], target [200] and [sim_time = 300] has [3000] samples,
    its first temperature is [25] and all its heater powers lie in
    [[0, 100]]. *)
Theorem run_simulation_series :
  (forall (Kp Ki Kd target_temp : Qc) (time_steps : Z),
      exists d,
        Simulation.run_steps Kp Ki Kd target_temp time_steps = Ok d /\
        series_length (series_of_data d) (Z.to_nat time_steps) /\
        forall i, (i < Z.to_nat time_steps)%nat ->
                  sample_at Kp Ki Kd target_temp (series_of_data d) i) /\
  (forall sim_time : float,
      Binary64.time_steps sim_time
      = Binary64.py_int (sim_time / 0.1)%float) /\
  (forall (Kp Ki Kd target_temp : Qc) (sim_time : float) (n : Z),
      Binary64.time_steps sim_time = Ok n ->
      exists d,
        Binary64.run_simulation Kp Ki Kd target_temp sim_time = Ok d /\
        series_length (series_of_data d) (Z.to_nat n) /\
        forall i, (i < Z.to_nat n)%nat ->
                  sample_at Kp Ki Kd target_temp (series_of_data d) i) /\
  Binary64.time_steps 300 = Ok 3000%Z /\
  (exists d,
      Binary64.run_simulation (Q2Qc 5) (Q2Qc (1 # 10)) 1 (Q2Qc 200) 300
      = Ok d /\
      series_length (series_of_data d) 3000 /\
      nth_error (Data.temperatures d) 0 = Some (Q2Qc 25) /\
      Forall (fun hp => 0 <= hp <= Q2Qc 100) (Data.heater_powers d)).
Proof.
  split; [exact run_steps_spec | ].
  split; [exact time_steps_eq | ].
  split.
  - intros Kp Ki Kd target_temp sim_time n Hn.
    rewrite (binary64_run_steps _ _ _ _ _ _ Hn). apply run_steps_spec.
  - assert (H300 : Binary64.time_steps 300 = Ok 3000%Z)
      by (vm_compute; reflexivity).
    split; [exact H300 | ].
    rewrite (binary64_run_steps _ _ _ _ _ _ H300).
    destruct (run_steps_spec (Q2Qc 5) (Q2Qc (1 # 10)) 1 (Q2Qc 200) 3000)
      as (d & Hd & HL & Hrows).
    change (Z.to_nat 3000) with 3000%nat in HL, Hrows.
    exists d. split; [exact Hd | ]. split; [exact HL | ]. split.
    + apply (sample_at_first_temperature (Q2Qc 5) (Q2Qc (1 # 10)) 1
               (Q2Qc 200) (series_of_data d)), Hrows. lia.
    + apply (sample_at_power_range (Q2Qc 5) (Q2Qc (1 # 10)) 1 (Q2Qc 200)
                                   (series_of_data d) 3000).
      * apply HL.
      * exact Hrows.
Qed.

End Binary64Props.

(** ** The metrics *)

Lemma find_steady_find (errors : list Qc) (tolerance : Qc) (range : list nat) :
  Metrics.find_steady errors tolerance range
  = find (steady_b errors tolerance) range.
Proof.
  induction range as [ | i rest IH]; cbn; [reflexivity | ].
  unfold steady_b at 1.
  destruct (Metrics.within tolerance (nth i errors 0)); cbn; [ | exact IH].
  destruct (forallb _ _); [reflexivity | exact IH].
Qed.

Lemma find_seq_some (p : nat -> bool) (n a i : nat) :
  find p (seq a n) = Some i ->
  (a <= i < a + n)%nat /\ p i = true /\
  forall i', (a <= i' < i)%nat -> p i' = false.
Proof.
  revert a. induction n as [ | n IH]; intros a; cbn; [discriminate | ].
  destruct (p a) eqn:Ea.
  - intros [= <-]. repeat split; [lia | lia | exact Ea | intros; lia].
  - intros H. destruct (IH _ H) as (Hr & Hp & Hfirst).
    repeat split; [lia | lia | exact Hp | ].
    intros i' Hi'. destruct (Nat.eq_dec i' a) as [-> | Hne]; [exact Ea | ].
    apply Hfirst. lia.
Qed.

Lemma find_seq_none (p : nat -> bool) (n a : nat) :
  find p (seq a n) = None ->
  forall i, (a <= i < a + n)%nat -> p i = false.
Proof.
  intros H i Hi. apply (find_none _ _ H). apply in_seq. exact Hi.
Qed.

Lemma forallb_firstn_nth (p : Qc -> bool) (c : nat) (l : list Qc) :
  forallb p (firstn c l) = true <->
  forall j, (j < c)%nat -> (j < length l)%nat -> p (nth j l 0) = true.
Proof.
  revert l. induction c as [ | c IH]; intros l.
  - cbn. split; [intros _ j Hj; lia | reflexivity].
  - destruct l as [ | x l]; cbn [firstn forallb length].
    + split; [intros _ j _ Hj; lia | reflexivity].
    + rewrite andb_true_iff, IH. split.
      * intros [Hx Hl] [ | j] Hj Hj'; cbn; [exact Hx | ].
        apply Hl; lia.
      * intros H. split; [apply (H 0%nat); lia | ].
        intros j Hj Hj'. apply (H (S j)); lia.
Qed.

Lemma sub_pointwise_length (a b : list Qc) :
  length a = length b -> length (Metrics.sub_pointwise a b) = length a.
Proof.
  revert b. induction a as [ | x a IH]; intros [ | y b]; cbn;
    try discriminate; [reflexivity | ].
  intros [= H]. now rewrite IH.
Qed.

Lemma sub_pointwise_nth (a b : list Qc) (j : nat) (x y : Qc) :
  nth_error a j = Some x -> nth_error b j = Some y ->
  nth j (Metrics.sub_pointwise a b) 0 = x - y.
Proof.
  revert b j. induction a as [ | x' a IH]; intros [ | y' b] [ | j]; cbn;
    try discriminate.
  - now intros [= ->] [= ->].
  - apply IH.
Qed.

Lemma within_iff (tolerance e : Qc) :
  Metrics.within tolerance e = true <-> Qcabs.Qcabs e <= tolerance.
Proof. unfold Metrics.within, Qcleb. apply Qle_bool_iff. Qed.

Section Settling.

Variable d : Data.t.
Variable s0 : Qc.
Hypothesis Hlen : length (Data.setpoints d) = length (Data.temperatures d).
Hypothesis Hs0 : nth_error (Data.setpoints d) 0 = Some s0.

Let errors := Metrics.sub_pointwise (Data.setpoints d) (Data.temperatures d).
Let tolerance := s0 * Q2Qc (2 # 100).

Lemma errors_length : length errors = length (Data.temperatures d).
Proof. unfold errors. now rewrite sub_pointwise_length. Qed.

Lemma in_band_within (j : nat) :
  (j < length (Data.temperatures d))%nat ->
  in_band d j <-> Metrics.within tolerance (nth j errors 0) = true.
Proof.
  intros Hj.
  destruct (nth_error (Data.setpoints d) j) as [s | ] eqn:Es;
    [ | apply nth_error_None in Es; lia].
  destruct (nth_error (Data.temperatures d) j) as [t | ] eqn:Et;
    [ | apply nth_error_None in Et; lia].
  unfold errors. rewrite (sub_pointwise_nth _ _ _ _ _ Es Et), within_iff.
  unfold tolerance. rewrite (Qcmult_comm s0). split.
  - intros (s0' & s' & t' & H0 & Hs & Ht & Hb).
    rewrite Hs0 in H0. rewrite Es in Hs. rewrite Et in Ht.
    injection H0 as <-. injection Hs as <-. injection Ht as <-. exact Hb.
  - intros Hb. now exists s0, s, t.
Qed.

Lemma steady_b_settles (i : nat) :
  (i < length (Data.temperatures d))%nat ->
  steady_b errors tolerance i = true <-> settles_at d i.
Proof.
  intros Hi. unfold steady_b, settles_at.
  rewrite andb_true_iff, forallb_firstn_nth, length_skipn, errors_length.
  split.
  - intros [_ Hwin]. split; [exact Hi | ]. intros j Hj.
    apply in_band_within; [lia | ].
    replace j with (i + (j - i))%nat by lia.
    rewrite <- nth_skipn. apply Hwin; lia.
  - intros [_ Hwin]. split.
    + apply in_band_within; [exact Hi | ]. apply Hwin. lia.
    + intros j Hj Hj'. rewrite nth_skipn.
      apply in_band_within; [lia | ]. apply Hwin. lia.
Qed.

(** The search loop stops at the first qualifying index, if there is one. *)
Lemma find_steady_first (i : nat) :
  Metrics.find_steady errors tolerance (seq 0 (length errors)) = Some i ->
  first_settling d i.
Proof.
  rewrite find_steady_find, errors_length. intros H.
  destruct (find_seq_some _ _ _ _ H) as (Hr & Hp & Hfirst).
  split.
  - apply steady_b_settles; [lia | exact Hp].
  - intros i' Hi' Hs. apply steady_b_settles in Hs; [ | lia].
    rewrite Hfirst in Hs by lia. discriminate.
Qed.

Lemma find_steady_none :
  Metrics.find_steady errors tolerance (seq 0 (length errors)) = None ->
  forall i, ~ settles_at d i.
Proof.
  rewrite find_steady_find, errors_length. intros H i Hs.
  pose proof Hs as [Hi _]. apply steady_b_settles in Hs; [ | exact Hi].
  rewrite (find_seq_none _ _ _ H) in Hs by lia. discriminate.
Qed.

End Settling.

(** What the settling-time line of [print_performance] says, for a record
    whose setpoint and temperature series have the same length: the time of
    the first qualifying index when that index is not [0]; "not reached" when
    no index qualifies, and also when the first qualifying index is [0]. *)
Lemma print_performance_settling (d : Data.t) (r : Metrics.report) :
  length (Data.setpoints d) = length (Data.temperatures d) ->
  Metrics.print_performance d = Ok r ->
  match Metrics.settling_time r with
  | Metrics.SettledAt t =>
      exists i, i <> 0%nat /\ first_settling d i /\
                nth_error (Data.times d) i = Some t
  | Metrics.NotReached =>
      first_settling d 0 \/ forall i, ~ settles_at d i
  end.
Proof.
  intros Hlen. unfold Metrics.print_performance, Metrics.np_sub.
  rewrite Hlen, Nat.eqb_refl. cbn [bind]. unfold Metrics.index at 1.
  destruct (nth_error (Data.setpoints d) 0) as [s0 | ] eqn:Hs0;
    [ | discriminate].
  cbn [bind].
  pose proof (find_steady_first d s0 Hlen Hs0) as Hfirst.
  pose proof (find_steady_none d s0 Hlen Hs0) as Hnone.
  cbv zeta in Hfirst, Hnone.
  destruct (Metrics.find_steady _ _ _) as [[ | i] | ].
  - cbn [Metrics.truthy bind].
    destruct (Metrics.np_max _); cbn [bind]; [ | discriminate].
    intros [= <-]. cbn. left. now apply Hfirst.
  - cbn [Metrics.truthy]. unfold Metrics.index.
    destruct (nth_error (Data.times d) (S i)) as [t | ] eqn:Et;
      cbn [bind]; [ | discriminate].
    destruct (Metrics.np_max _); cbn [bind]; [ | discriminate].
    intros [= <-]. cbn. exists (S i).
    split; [discriminate | ]. split; [now apply Hfirst | exact Et].
  - cbn [Metrics.truthy bind].
    destruct (Metrics.np_max _); cbn [bind]; [ | discriminate].
    intros [= <-]. cbn. right. now apply Hnone.
Qed.

(** C1.  The claim fails on the code when the first qualifying index is [0].
    In the run with target [25] (the plant starts at [25], so every sample is
    on the setpoint) index [0] qualifies, the search loop finds it, and the
    report still says "not reached": the test [if steady_state_idx:] takes
    the index [0] for false. *)
Theorem settling_at_index_zero_not_reported :
  exists d r,
    Simulation.run_simulation (Q2Qc 5) (Q2Qc (1 # 10)) 1 (Q2Qc 25) (Q2Qc 300)
    = Ok d /\
    length (Data.temperatures d) = 3000%nat /\
    first_settling d 0 /\
    nth_error (Data.times d) 0 = Some 0 /\
    Metrics.print_performance d = Ok r /\
    Metrics.settling_time r = Metrics.NotReached.
Proof.
  eexists. eexists.
  split; [vm_compute; reflexivity | ].
  split; [vm_compute; reflexivity | ].
  split.
  - apply (find_steady_first _ (Q2Qc 25)).
    + vm_compute; reflexivity.
    + vm_compute; reflexivity.
    + vm_compute; reflexivity.
  - split; [vm_compute; apply f_equal, Qc_is_canon; reflexivity | ].
    split; [vm_compute; reflexivity | reflexivity].
Qed.

(** The mean of no samples is NaN; [print_performance] would reach it only
    after [setpoints[0]] and [np.max], which raise first. *)
Lemma np_mean_empty : Metrics.np_mean [] = None.
Proof. reflexivity. Qed.

(** C2, as stated, fails: on the record of the run with [sim_time = 0]
    [print_performance] raises [IndexError] and reports nothing. *)
Lemma metrics_on_empty_run_raise :
  exists d,
    Simulation.run_simulation (Q2Qc 5) (Q2Qc (1 # 10)) 1 (Q2Qc 200) 0 = Ok d /\
    series_length (series_of_data d) 0 /\
    Metrics.print_performance d = Raise IndexError /\
    ~ exists r,
        Metrics.print_performance d = Ok r /\
        Metrics.settling_time r = Metrics.NotReached /\
        Metrics.mse r = None.
Proof.
  eexists. split; [reflexivity | ].
  split; [repeat split | ].
  split; [reflexivity | ].
  intros (r & Hr & _). discriminate Hr.
Qed.

(** C2, amended.  [run_simulation] with [sim_time = 0] returns the record
    with seven empty series (and the gains), whatever the gains and the
    target; [print_performance] on a record without setpoints and
    temperatures, whatever its other entries, raises [IndexError] at
    [setpoints[0]], before it reports anything. *)
Theorem metrics_on_empty_record :
  (forall Kp Ki Kd target_temp : Qc,
      Simulation.run_simulation Kp Ki Kd target_temp 0
      = Ok (Data.mk [] [] [] [] [] [] [] Kp Ki Kd)) /\
  (forall (times heater_powers p_terms i_terms d_terms : list Qc)
          (Kp Ki Kd : Qc),
      Metrics.print_performance
        (Data.mk times [] [] heater_powers p_terms i_terms d_terms Kp Ki Kd)
      = Raise IndexError).
Proof.
  split.
  - intros Kp Ki Kd target_temp. reflexivity.
  - intros. reflexivity.
Qed.

(** * Further properties of the code *)

(** ** From [Qc] to [Q], where [lra] decides linear arithmetic *)

Lemma this_plus (x y : Qc) : (this (x + y) == this x + this y)%Q.
Proof. apply Qred_correct. Qed.

Lemma this_mult (x y : Qc) : (this (x * y) == this x * this y)%Q.
Proof. apply Qred_correct. Qed.

Lemma this_opp (x : Qc) : (this (- x) == - this x)%Q.
Proof. apply Qred_correct. Qed.

Lemma this_minus (x y : Qc) : (this (x - y) == this x - this y)%Q.
Proof. unfold Qcminus. rewrite this_plus, this_opp. reflexivity. Qed.

Lemma this_inv (x : Qc) : (this (/ x) == / this x)%Q.
Proof. apply Qred_correct. Qed.

Lemma this_div (x y : Qc) : (this (x / y) == this x * / this y)%Q.
Proof. unfold Qcdiv. rewrite this_mult, this_inv. reflexivity. Qed.

Lemma this_Q2Qc (q : Q) : (this (Q2Qc q) == q)%Q.
Proof. apply Qred_correct. Qed.

(** Turns the order relations of [Qc] in the goal and the hypotheses into
    relations of [Q] over the numbers' fractions, and evaluates the inverse
    of a literal. *)
Ltac qc2q :=
  unfold Qcle, Qclt in *;
  repeat match goal with
  | H : context [this (Qcplus _ _)] |- _ => rewrite this_plus in H
  | H : context [this (Qcmult _ _)] |- _ => rewrite this_mult in H
  | H : context [this (Qcminus _ _)] |- _ => rewrite this_minus in H
  | H : context [this (Qcopp _)] |- _ => rewrite this_opp in H
  | H : context [this (Qcdiv _ _)] |- _ => rewrite this_div in H
  | H : context [this (Q2Qc _)] |- _ => rewrite this_Q2Qc in H
  | |- context [this (Qcplus _ _)] => rewrite this_plus
  | |- context [this (Qcmult _ _)] => rewrite this_mult
  | |- context [this (Qcminus _ _)] => rewrite this_minus
  | |- context [this (Qcopp _)] => rewrite this_opp
  | |- context [this (Qcdiv _ _)] => rewrite this_div
  | |- context [this (Q2Qc _)] => rewrite this_Q2Qc
  end;
  repeat match goal with
  | H : context [Qinv (Qmake ?a ?b)] |- _ =>
      let v := eval vm_compute in (Qinv (Qmake a b)) in
      change (Qinv (Qmake a b)) with v in H
  | |- context [Qinv (Qmake ?a ?b)] =>
      let v := eval vm_compute in (Qinv (Qmake a b)) in
      change (Qinv (Qmake a b)) with v
  end.

(** ** The controller, further *)

Lemma error_sum_snoc (setpoint : Qc) (l : list Qc) (x : Qc) :
  error_sum setpoint (l ++ [x]) = error_sum setpoint l + (setpoint - x).
Proof.
  induction l as [ | y l IH]; cbn.
  - ring.
  - unfold error_sum in IH. rewrite IH. ring.
Qed.

Lemma last_cons_default {A : Type} (l : list A) (a b d d' : A) :
  last (a :: l) d = last (b :: a :: l) d'.
Proof.
  change (last (b :: a :: l) d') with (last (a :: l) d').
  revert a. induction l as [ | c l IH]; intros a; [reflexivity | ].
  change (last (c :: l) d = last (c :: l) d'). apply IH.
Qed.

Lemma pid_update_state (c : PIDController.t) (x dt : Qc) :
  exists o,
    PIDController.update c x dt
    = Ok (PIDController.mk (PIDController.Kp c) (PIDController.Ki c)
                           (PIDController.Kd c) (PIDController.setpoint c)
                           (PIDController.integral c
                            + (PIDController.setpoint c - x) * dt)
                           (PIDController.setpoint c - x), o).
Proof.
  destruct (Qclt_le_dec 0 dt) as [Hlt | Hle].
  - rewrite (pid_update_then _ _ _ Hlt). cbv zeta. eauto.
  - rewrite (pid_update_else _ _ _ Hle). cbv zeta. eauto.
Qed.

(** The controller after a list of measurements, in closed form. *)
Lemma controller_after_closed (c : PIDController.t) (dt : Qc)
      (measured : list Qc) :
  exists c',
    controller_after dt measured c = Ok c' /\
    PIDController.Kp c' = PIDController.Kp c /\
    PIDController.Ki c' = PIDController.Ki c /\
    PIDController.Kd c' = PIDController.Kd c /\
    PIDController.setpoint c' = PIDController.setpoint c /\
    PIDController.integral c'
    = PIDController.integral c
      + error_sum (PIDController.setpoint c) measured * dt /\
    PIDController.prev_error c'
    = last (map (fun x => PIDController.setpoint c - x) measured)
           (PIDController.prev_error c).
Proof.
  revert c. induction measured as [ | x l IH]; intros c.
  - exists c. cbn. repeat split. ring.
  - destruct (pid_update_state c x dt) as [o Hu].
    cbn [controller_after]. rewrite Hu. cbn [bind].
    destruct (IH (PIDController.mk (PIDController.Kp c) (PIDController.Ki c)
                           (PIDController.Kd c) (PIDController.setpoint c)
                           (PIDController.integral c
                            + (PIDController.setpoint c - x) * dt)
                           (PIDController.setpoint c - x)))
      as (c' & Hc' & HKp & HKi & HKd & Hsp & Hint & Hprev).
    cbn [PIDController.integral PIDController.setpoint
         PIDController.prev_error PIDController.Kp PIDController.Ki
         PIDController.Kd] in HKp, HKi, HKd, Hsp, Hint, Hprev.
    exists c'. repeat (split; [assumption | ]). split.
    + rewrite Hint. cbn [error_sum fold_right].
      fold (error_sum (PIDController.setpoint c) l). ring.
    + rewrite Hprev. cbn [map]. destruct l as [ | y l]; [reflexivity | ].
      cbn [map]. apply last_cons_default.
Qed.

(** X3.  Whatever measurements a controller has been fed, and with whatever
    [dt] (positive or not), none of the updates raises; [integral] has grown
    by [dt] times the plain sum of the errors (nothing limits it);
    [prev_error] is the error of the last measurement; and [reset] then gives
    the same controller as [reset] before the updates. *)
Theorem controller_after_history (c : PIDController.t) (dt : Qc)
        (measured : list Qc) :
  exists c',
    controller_after dt measured c = Ok c' /\
    PIDController.integral c'
    = PIDController.integral c
      + error_sum (PIDController.setpoint c) measured * dt /\
    PIDController.prev_error c'
    = last (map (fun x => PIDController.setpoint c - x) measured)
           (PIDController.prev_error c) /\
    PIDController.reset c' = PIDController.reset c.
Proof.
  destruct (controller_after_closed c dt measured)
    as (c' & Hc' & HKp & HKi & HKd & Hsp & Hint & Hprev).
  exists c'. split; [exact Hc' | ]. split; [exact Hint | ].
  split; [exact Hprev | ].
  unfold PIDController.reset. now rewrite HKp, HKi, HKd, Hsp.
Qed.

(** ** The run, further *)

Lemma max_temp_plant0 : max_temp plant0 = Ok (Q2Qc (2075 # 3)).
Proof.
  unfold max_temp. rewrite py_div_ok by discriminate. cbn [bind].
  rewrite py_div_ok by discriminate. cbn [bind]. apply f_equal. apply Qc_is_canon. reflexivity.
Qed.

(** One update of the plant of the run, with a power in [[0, 100]], keeps
    the temperature between the ambient [25] and [max_temp]. *)
Lemma plant_step_bounds (T hp : Qc) :
  Q2Qc 25 <= T <= Q2Qc (2075 # 3) ->
  0 <= hp <= Q2Qc 100 ->
  Q2Qc 25
  <= T + (hp / Q2Qc 5 - Q2Qc (3 # 100) * (T - Q2Qc 25)) * Simulation.dt
  <= Q2Qc (2075 # 3).
Proof.
  intros [H1 H2] [H3 H4]. unfold Simulation.dt. qc2q. split; lra.
Qed.

Lemma plant_after_bounds (powers : list Qc) (s s' : TemperatureSystem.t) :
  TemperatureSystem.ambient s = Q2Qc 25 ->
  TemperatureSystem.heat_capacity s = Q2Qc 5 ->
  TemperatureSystem.cooling_rate s = Q2Qc (3 # 100) ->
  Q2Qc 25 <= TemperatureSystem.temp s <= Q2Qc (2075 # 3) ->
  Forall (fun hp => 0 <= hp <= Q2Qc 100) powers ->
  plant_after Simulation.dt powers s = Ok s' ->
  Q2Qc 25 <= TemperatureSystem.temp s' <= Q2Qc (2075 # 3).
Proof.
  revert s. induction powers as [ | hp l IH]; intros s Ha Hc Hk HT Hall; cbn.
  - now intros [= <-].
  - inversion Hall as [ | ? ? Hhp Hl]; subst.
    rewrite plant_update_eq by (rewrite Hc; discriminate).
    cbv zeta. cbn [bind]. apply IH; cbn; try assumption.
    rewrite Ha, Hc, Hk. now apply plant_step_bounds.
Qed.

(** X4.  In every run, whatever the gains, the target and the duration, every
    recorded temperature lies between the ambient temperature [25] and the
    [max_temp] the plant's constructor computes ([25 + (100/5)/0.03]). *)
Theorem run_temperature_bounds (Kp Ki Kd target_temp sim_time : Qc) :
  exists d M,
    Simulation.run_simulation Kp Ki Kd target_temp sim_time = Ok d /\
    max_temp plant0 = Ok M /\
    Forall (fun T => Q2Qc 25 <= T <= M) (Data.temperatures d).
Proof.
  destruct (run_simulation_spec Kp Ki Kd target_temp sim_time)
    as (d & Hd & _ & _ & _ & HL & _ & Hrows).
  exists d, (Q2Qc (2075 # 3)).
  split; [exact Hd | ]. split; [exact max_temp_plant0 | ].
  assert (Hpow : Forall (fun hp => 0 <= hp <= Q2Qc 100) (Data.heater_powers d)).
  { apply (sample_at_power_range Kp Ki Kd target_temp (series_of_data d)
             (Z.to_nat (py_int (sim_time / Simulation.dt)))).
    - apply HL.
    - exact Hrows. }
  apply Forall_forall. intros T Hin.
  destruct (In_nth_error _ _ Hin) as [i Hi].
  assert (Hlt : (i < Z.to_nat (py_int (sim_time / Simulation.dt)))%nat).
  { destruct HL as (_ & <- & _). apply nth_error_Some.
    series_simpl. congruence. }
  destruct (Hrows i Hlt)
    as (plant_i & pid_i & pid' & output & P & I_ & D & H).
  series_simpl.
  destruct H as (Hp & _ & _ & _ & HT & _).
  rewrite Hi in HT. injection HT as ->.
  apply (plant_after_bounds (firstn i (Data.heater_powers d)) plant0);
    try reflexivity; try exact Hp.
  - split; discriminate.
  - apply Forall_forall. intros hp Hhp.
    rewrite Forall_forall in Hpow. apply Hpow.
    rewrite <- (firstn_skipn i (Data.heater_powers d)).
    apply in_or_app. now left.
Qed.

Lemma sample_at_terms (Kp Ki Kd target_temp : Qc) (d : Data.t) (i : nat) :
  sample_at Kp Ki Kd target_temp (series_of_data d) i ->
  terms_at Ki Kd target_temp d i.
Proof.
  intros (plant_i & pid_i & pid' & output & P & I_ & D & H).
  series_simpl.
  destruct H as (_ & Hc & Hu & _ & HT & _ & _ & _ & HI & HD).
  destruct (controller_after_closed (controller0 Kp Ki Kd target_temp)
              Simulation.dt (firstn i (Data.temperatures d)))
    as (c' & Hc' & _ & HKi & HKd & Hsp & Hint & Hprev).
  rewrite Hc in Hc'. injection Hc' as <-.
  cbn in HKi, HKd, Hsp, Hint, Hprev.
  rewrite (pid_update_then _ _ _ Qc_0_lt_dt) in Hu. cbv zeta in Hu.
  injection Hu as _ _ _ HI' HD'.
  exists (TemperatureSystem.temp plant_i). split; [exact HT | ]. split.
  - rewrite HI, <- HI', HKi, Hsp, Hint.
    rewrite (firstn_S_nth_error _ _ _ HT), error_sum_snoc.
    apply f_equal. ring.
  - destruct i as [ | j].
    + rewrite HD, <- HD', HKd, Hsp, Hprev. cbn [firstn map last].
      apply f_equal. unfold Qcdiv. ring.
    + destruct (nth_error (Data.temperatures d) j) as [T_prev | ] eqn:Ej.
      * exists T_prev. split; [reflexivity | ].
        rewrite HD, <- HD', HKd, Hsp, Hprev.
        rewrite (firstn_S_nth_error _ _ _ Ej), map_app.
        cbn [map]. rewrite last_last.
        apply f_equal. unfold Qcdiv. ring.
      * exfalso. apply nth_error_None in Ej.
        assert (Hlt : (S j < length (Data.temperatures d))%nat)
          by (apply nth_error_Some; congruence).
        lia.
Qed.

(** X6.  In every run, at every step [i], the recorded integral term is
    [Ki] times [dt] times the sum of the errors of the temperatures recorded
    up to and including step [i]; the derivative term of step [0] is
    [Kd * (target - temperature[0]) / dt] (the previous error starts at [0]),
    and that of a later step is [Kd] times the drop of the temperature since
    the step before, over [dt].  This holds of the loop for every number of
    iterations, and so of every run, whose number of iterations is
    [int(sim_time / dt)]. *)
Theorem run_integral_and_derivative_terms :
  (forall (Kp Ki Kd target_temp : Qc) (time_steps : Z),
      exists d,
        Simulation.run_steps Kp Ki Kd target_temp time_steps = Ok d /\
        length (Data.temperatures d) = Z.to_nat time_steps /\
        length (Data.i_terms d) = Z.to_nat time_steps /\
        length (Data.d_terms d) = Z.to_nat time_steps /\
        forall i, (i < Z.to_nat time_steps)%nat ->
                  terms_at Ki Kd target_temp d i) /\
  (forall (Kp Ki Kd target_temp : Qc) (sim_time : PrimFloat.float) (n : Z),
      Binary64.time_steps sim_time = Ok n ->
      exists d,
        Binary64.run_simulation Kp Ki Kd target_temp sim_time = Ok d /\
        length (Data.temperatures d) = Z.to_nat n /\
        length (Data.i_terms d) = Z.to_nat n /\
        length (Data.d_terms d) = Z.to_nat n /\
        forall i, (i < Z.to_nat n)%nat -> terms_at Ki Kd target_temp d i).
Proof.
  assert (Hloop : forall (Kp Ki Kd target_temp : Qc) (time_steps : Z),
      exists d,
        Simulation.run_steps Kp Ki Kd target_temp time_steps = Ok d /\
        length (Data.temperatures d) = Z.to_nat time_steps /\
        length (Data.i_terms d) = Z.to_nat time_steps /\
        length (Data.d_terms d) = Z.to_nat time_steps /\
        forall i, (i < Z.to_nat time_steps)%nat ->
                  terms_at Ki Kd target_temp d i).
  { intros Kp Ki Kd target_temp time_steps.
    destruct (run_steps_spec Kp Ki Kd target_temp time_steps)
      as (d & Hd & HL & Hrows).
    exists d. split; [exact Hd | ].
    destruct HL as (_ & L2 & _ & _ & _ & L6 & L7). series_simpl.
    repeat (split; [assumption | ]).
    intros i Hi. apply (sample_at_terms Kp), Hrows, Hi. }
  split; [exact Hloop | ].
  intros Kp Ki Kd target_temp sim_time n Hn.
  rewrite (binary64_run_steps _ _ _ _ _ _ Hn). apply Hloop.
Qed.

Lemma run_integral_and_derivative_terms_witness :
  exists d,
    Binary64.run_simulation (Q2Qc 5) (Q2Qc (1 # 10)) 1 (Q2Qc 200)
                            Binary64.dt = Ok d /\
    length (Data.i_terms d) = 1%nat /\
    terms_at (Q2Qc (1 # 10)) 1 (Q2Qc 200) d 0.
Proof.
  destruct (proj2 run_integral_and_derivative_terms
              (Q2Qc 5) (Q2Qc (1 # 10)) 1 (Q2Qc 200) Binary64.dt 1%Z)
    as (d & Hd & _ & HL & _ & Hi).
  - vm_compute; reflexivity.
  - exists d. split; [exact Hd | ]. split; [exact HL | ].
    apply Hi. exact (le_n 1).
Defined.

(** ** The metrics, further *)

(** What a normal return of [print_performance] tells. *)
Lemma print_performance_inv (d : Data.t) (r : Metrics.report) :
  Metrics.print_performance d = Ok r ->
  exists errors s0 m,
    Metrics.np_sub (Data.setpoints d) (Data.temperatures d) = Ok errors /\
    nth_error (Data.setpoints d) 0 = Some s0 /\
    Metrics.np_max (Data.temperatures d) = Ok m /\
    (Metrics.settling_time r = Metrics.NotReached \/
     exists i t,
       Metrics.find_steady errors (s0 * Q2Qc (2 # 100))
                           (seq 0 (length errors)) = Some (S i) /\
       nth_error (Data.times d) (S i) = Some t /\
       Metrics.settling_time r = Metrics.SettledAt t) /\
    Metrics.overshoot r = m - s0 /\
    Metrics.overshoot_percent r
    = option_map (fun q => q * Q2Qc 100) (Metrics.np_div (m - s0) s0) /\
    Metrics.mse r = Metrics.np_mean (map (fun e => e * e) errors).
Proof.
  unfold Metrics.print_performance.
  destruct (Metrics.np_sub _ _) as [errors | e]; cbn [bind]; [ | discriminate].
  unfold Metrics.index at 1.
  destruct (nth_error (Data.setpoints d) 0) as [s0 | ]; cbn [bind];
    [ | discriminate].
  destruct (Metrics.find_steady _ _ _) as [[ | i] | ] eqn:Hf;
    cbn [Metrics.truthy bind].
  - destruct (Metrics.np_max _) as [m | e]; cbn [bind]; [ | discriminate].
    intros [= <-]. exists errors, s0, m. cbn. repeat split. now left.
  - unfold Metrics.index.
    destruct (nth_error (Data.times d) (S i)) as [t | ] eqn:Et;
      cbn [bind]; [ | discriminate].
    destruct (Metrics.np_max _) as [m | e]; cbn [bind]; [ | discriminate].
    intros [= <-]. exists errors, s0, m. cbn. repeat split.
    right. now exists i, t.
  - destruct (Metrics.np_max _) as [m | e]; cbn [bind]; [ | discriminate].
    intros [= <-]. exists errors, s0, m. cbn. repeat split. now left.
Qed.

Lemma within_negative (tolerance e : Qc) :
  tolerance < 0 -> Metrics.within tolerance e = false.
Proof.
  intros Hneg. destruct (Metrics.within tolerance e) eqn:E; [ | reflexivity].
  exfalso. apply within_iff in E.
  apply (Qclt_not_le _ _ Hneg).
  apply Qcle_trans with (Qcabs.Qcabs e); [apply Qcabs.Qcabs_nonneg | exact E].
Qed.

Lemma find_steady_negative (errors : list Qc) (tolerance : Qc)
      (range : list nat) :
  tolerance < 0 -> Metrics.find_steady errors tolerance range = None.
Proof.
  intros Hneg. induction range as [ | i rest IH]; cbn; [reflexivity | ].
  now rewrite (within_negative _ _ Hneg).
Qed.

(** X8.  With a negative first setpoint the tolerance [0.02 * setpoint[0]]
    is negative, no sample can be within it, and a report, when there is
    one, says "not reached", whatever the temperatures. *)
Theorem settling_not_reached_below_zero (d : Data.t) (r : Metrics.report)
        (s0 : Qc) :
  nth_error (Data.setpoints d) 0 = Some s0 ->
  s0 < 0 ->
  Metrics.print_performance d = Ok r ->
  Metrics.settling_time r = Metrics.NotReached.
Proof.
  intros Hs0 Hneg Hr.
  destruct (print_performance_inv d r Hr)
    as (errors & s0' & m & _ & Hs0' & _ & [Hn | (i & t & Hf & _)] & _);
    [exact Hn | ].
  rewrite Hs0 in Hs0'. injection Hs0' as <-.
  rewrite find_steady_negative in Hf; [discriminate | ].
  unfold Qclt in *. qc2q. lra.
Qed.

Lemma settling_not_reached_below_zero_witness :
  exists d r,
    Simulation.run_simulation (Q2Qc 5) (Q2Qc (1 # 10)) 1 (Q2Qc (-10))
                              (Q2Qc (1 # 5)) = Ok d /\
    Metrics.print_performance d = Ok r /\
    Metrics.settling_time r = Metrics.NotReached.
Proof.
  eexists. eexists.
  split; [vm_compute; reflexivity | ].
  match goal with
  | |- Metrics.print_performance ?D = _ /\ _ =>
      split;
      [ vm_compute; reflexivity
      | apply (settling_not_reached_below_zero D _ (Q2Qc (-10)));
        [ vm_compute; reflexivity | reflexivity | vm_compute; reflexivity ] ]
  end.
Defined.

Lemma Qcmax_ge_l (x y : Qc) : x <= Qcmax x y.
Proof.
  destruct (Qcmax_cases x y) as [[H ->] | [_ ->]];
    [now apply Qclt_le_weak | apply Qcle_refl].
Qed.

Lemma Qcmax_ge_r (x y : Qc) : y <= Qcmax x y.
Proof.
  destruct (Qcmax_cases x y) as [[_ ->] | [H ->]];
    [apply Qcle_refl | exact H].
Qed.

(** [np.max] returns an entry of the array that no entry exceeds. *)
Lemma np_max_spec (l : list Qc) (m : Qc) :
  Metrics.np_max l = Ok m -> In m l /\ forall x, In x l -> x <= m.
Proof.
  destruct l as [ | x l]; cbn [Metrics.np_max]; [discriminate | ].
  intros [= <-]. revert x. induction l as [ | y l IH]; intros x; cbn.
  - split; [now left | ]. intros z [<- | []]. apply Qcle_refl.
  - destruct (IH (Qcmax x y)) as [Hin Hmax]. split.
    + destruct Hin as [E | Hin]; [ | now right; right].
      rewrite <- E.
      destruct (Qcmax_cases x y) as [[_ ->] | [_ ->]];
        [right; left | left]; reflexivity.
    + intros z [<- | [<- | Hz]].
      * apply Qcle_trans with (Qcmax x y);
          [apply Qcmax_ge_l | apply Hmax; now left].
      * apply Qcle_trans with (Qcmax x y);
          [apply Qcmax_ge_r | apply Hmax; now left].
      * apply Hmax. now right.
Qed.

(** X9.  The overshoot a report gives is the largest recorded temperature
    minus [setpoints[0]]: some sample reaches it and none exceeds it (it is
    negative when every temperature is below the setpoint).  The percentage
    is that overshoot over [setpoints[0]] times [100], and not a finite
    number when [setpoints[0]] is [0]. *)
Theorem overshoot_is_largest_excess (d : Data.t) (r : Metrics.report) :
  Metrics.print_performance d = Ok r ->
  exists s0,
    nth_error (Data.setpoints d) 0 = Some s0 /\
    (exists T, In T (Data.temperatures d) /\ Metrics.overshoot r = T - s0) /\
    (forall T, In T (Data.temperatures d) -> T - s0 <= Metrics.overshoot r) /\
    (s0 = 0 -> Metrics.overshoot_percent r = None) /\
    (s0 <> 0 ->
     Metrics.overshoot_percent r
     = Some (Metrics.overshoot r / s0 * Q2Qc 100)).
Proof.
  intros Hr.
  destruct (print_performance_inv d r Hr)
    as (errors & s0 & m & _ & Hs0 & Hm & _ & Ho & Hp & _).
  destruct (np_max_spec _ _ Hm) as [Hin Hmax].
  exists s0. split; [exact Hs0 | ]. split; [ | split; [ | split]].
  - exists m. now split.
  - intros T HT. rewrite Ho. specialize (Hmax T HT). qc2q. lra.
  - intros ->. rewrite Hp. reflexivity.
  - intros Hnz. rewrite Hp, Ho. unfold Metrics.np_div.
    destruct (Qc_eq_dec s0 0); [contradiction | reflexivity].
Qed.

Lemma overshoot_is_largest_excess_witness :
  exists r,
    Metrics.print_performance
      (Data.mk [0; Simulation.dt; Q2Qc (1 # 5)]
               [Q2Qc 25; Q2Qc 210; Q2Qc 190]
               [Q2Qc 200; Q2Qc 200; Q2Qc 200]
               [0; 0; 0] [0; 0; 0] [0; 0; 0] [0; 0; 0] 1 0 0) = Ok r /\
    exists T,
      In T [Q2Qc 25; Q2Qc 210; Q2Qc 190] /\
      Metrics.overshoot r = T - Q2Qc 200.
Proof.
  eexists. split; [vm_compute; reflexivity | ].
  destruct (overshoot_is_largest_excess
              (Data.mk [0; Simulation.dt; Q2Qc (1 # 5)]
                       [Q2Qc 25; Q2Qc 210; Q2Qc 190]
                       [Q2Qc 200; Q2Qc 200; Q2Qc 200]
                       [0; 0; 0] [0; 0; 0] [0; 0; 0] [0; 0; 0] 1 0 0)
              _ ltac:(vm_compute; reflexivity))
    as (s0 & Hs0 & (T & HT & Ho) & _).
  cbn in Hs0. injection Hs0 as <-.
  exists T. split; [exact HT | exact Ho].
Defined.

(** [print_performance] returns a report for every record with at least
    one sample whose time, setpoint and temperature series have one
    length. *)
Lemma print_performance_total (d : Data.t) :
  length (Data.setpoints d) = length (Data.temperatures d) ->
  length (Data.times d) = length (Data.temperatures d) ->
  (0 < length (Data.temperatures d))%nat ->
  exists r, Metrics.print_performance d = Ok r.
Proof.
  intros Hlen Htimes Hpos.
  unfold Metrics.print_performance, Metrics.np_sub.
  rewrite Hlen, Nat.eqb_refl. cbn [bind]. unfold Metrics.index at 1.
  destruct (nth_error (Data.setpoints d) 0) as [s0 | ] eqn:Hs0;
    [ | apply nth_error_None in Hs0; lia].
  cbn [bind].
  assert (Hmax : exists m, Metrics.np_max (Data.temperatures d) = Ok m).
  { destruct (Data.temperatures d); [cbn in Hpos; lia | cbn; eauto]. }
  destruct Hmax as [m Hm].
  destruct (Metrics.find_steady _ _ _) as [[ | i] | ] eqn:Hf;
    cbn [Metrics.truthy bind].
  1, 3: rewrite Hm; cbn [bind]; eauto.
  rewrite find_steady_find in Hf.
  destruct (find_seq_some _ _ _ _ Hf) as (Hr & _).
  rewrite sub_pointwise_length in Hr by exact Hlen.
  unfold Metrics.index.
  destruct (nth_error (Data.times d) (S i)) as [t | ] eqn:Et;
    [ | apply nth_error_None in Et; lia].
  cbn [bind]. rewrite Hm. cbn [bind]. eauto.
Qed.

Lemma steps_at_least_one (sim_time : Qc) :
  Q2Qc (1 # 10) <= sim_time ->
  (0 < Z.to_nat (py_int (sim_time / Simulation.dt)))%nat.
Proof.
  intros H. rewrite py_int_floor_steps.
  assert (H1 : (Qfloor 1%Q <= Qfloor (sim_time / Simulation.dt)%Qc)%Z).
  { apply Qfloor_resp_le. unfold Simulation.dt. qc2q. lra. }
  change (Qfloor 1%Q) with 1%Z in H1. lia.
Qed.

Lemma steps_none (sim_time : Qc) :
  sim_time < Q2Qc (1 # 10) ->
  Z.to_nat (py_int (sim_time / Simulation.dt)) = 0%nat.
Proof.
  intros H. rewrite py_int_floor_steps.
  pose proof (Qfloor_le (sim_time / Simulation.dt)%Qc) as Hfl.
  assert (H1 : (inject_Z (Qfloor (sim_time / Simulation.dt)%Qc) < 1)%Q).
  { apply Qle_lt_trans with (this (sim_time / Simulation.dt)); [exact Hfl | ].
    unfold Simulation.dt. qc2q. lra. }
  change 1%Q with (inject_Z 1) in H1.
  rewrite <- Zlt_Qlt in H1. lia.
Qed.

(** X11.  A run of at least one step ([sim_time >= 0.1]) can always be
    reported: [print_performance] returns on its record, whatever the gains
    and the target.  A shorter or negative [sim_time] gives the empty
    record, on which [print_performance] raises [IndexError].  [main], which
    runs [300] seconds, returns a report. *)
Theorem report_of_run (Kp Ki Kd target_temp sim_time : Qc) :
  (Q2Qc (1 # 10) <= sim_time ->
   exists d r,
     Simulation.run_simulation Kp Ki Kd target_temp sim_time = Ok d /\
     Metrics.print_performance d = Ok r) /\
  (sim_time < Q2Qc (1 # 10) ->
   Simulation.run_simulation Kp Ki Kd target_temp sim_time
   = Ok (Data.mk [] [] [] [] [] [] [] Kp Ki Kd) /\
   Metrics.print_performance (Data.mk [] [] [] [] [] [] [] Kp Ki Kd)
   = Raise IndexError) /\
  exists r, main = Ok r.
Proof.
  assert (Hgood : forall Kp Ki Kd target_temp sim_time,
             Q2Qc (1 # 10) <= sim_time ->
             exists d r,
               Simulation.run_simulation Kp Ki Kd target_temp sim_time = Ok d /\
               Metrics.print_performance d = Ok r).
  { clear. intros Kp Ki Kd target_temp sim_time Hlong.
    destruct (run_simulation_spec Kp Ki Kd target_temp sim_time)
      as (d & Hd & _ & _ & _ & HL & _ & _).
    pose proof (steps_at_least_one _ Hlong) as Hn.
    destruct HL as (L1 & L2 & L3 & _). series_simpl.
    destruct (print_performance_total d) as [r Hr]; try lia.
    exists d, r. now split. }
  split; [apply Hgood | ]. split.
  - intros Hshort.
    destruct (run_simulation_spec Kp Ki Kd target_temp sim_time)
      as (d & Hd & HKp & HKi & HKd & HL & _ & _).
    rewrite (steps_none _ Hshort) in HL.
    destruct HL as (L1 & L2 & L3 & L4 & L5 & L6 & L7). series_simpl.
    apply length_zero_iff_nil in L1, L2, L3, L4, L5, L6, L7.
    destruct d; cbn in *; subst. split; [exact Hd | reflexivity].
  - destruct (Hgood (Q2Qc 5) (Q2Qc (1 # 10)) 1 (Q2Qc 200) (Q2Qc 300))
      as (d & r & Hd & Hr); [discriminate | ].
    exists r. unfold main. rewrite Hd. exact Hr.
Qed.

(** X12.  When the setpoint and temperature series of a record have
    different lengths and neither has exactly one entry, the subtraction of
    the two arrays fails and [print_performance] raises [ValueError]. *)
Theorem print_performance_shape_mismatch (d : Data.t) :
  length (Data.setpoints d) <> length (Data.temperatures d) ->
  length (Data.setpoints d) <> 1%nat ->
  length (Data.temperatures d) <> 1%nat ->
  Metrics.print_performance d = Raise ValueError.
Proof.
  intros Hne Hs Ht. unfold Metrics.print_performance, Metrics.np_sub.
  destruct (Nat.eqb_spec (length (Data.setpoints d))
                         (length (Data.temperatures d))) as [E | _];
    [contradiction | ].
  destruct (Data.setpoints d) as [ | x [ | x' sp]];
    destruct (Data.temperatures d) as [ | y [ | y' tp]];
    cbn in *; try reflexivity; contradiction.
Qed.

Lemma print_performance_shape_mismatch_witness :
  Metrics.print_performance
    (Data.mk [0; Simulation.dt] [Q2Qc 25; Q2Qc 26; Q2Qc 27]
             [Q2Qc 200; Q2Qc 200] [0; 0] [0; 0] [0; 0] [0; 0] 1 0 0)
  = Raise ValueError.
Proof.
  apply print_performance_shape_mismatch; cbn; lia.
Defined.

(** ** The settling line, further *)

Lemma first_settling_unique (d : Data.t) (i j : nat) :
  first_settling d i -> first_settling d j -> i = j.
Proof.
  intros [Hi Hfi] [Hj Hfj].
  destruct (Nat.lt_trichotomy i j) as [Hlt | [E | Hgt]]; [ | exact E | ].
  - exfalso. exact (Hfj i Hlt Hi).
  - exfalso. exact (Hfi j Hgt Hj).
Qed.

Lemma steady_b_window (errors : list Qc) (tolerance : Qc) (i : nat) :
  (i < length errors)%nat ->
  steady_b errors tolerance i = true <-> window_within errors tolerance i.
Proof.
  intros Hi. unfold steady_b, window_within.
  rewrite andb_true_iff, forallb_firstn_nth, length_skipn.
  split.
  - intros [_ Hwin]. split; [exact Hi | ]. intros j Hj.
    apply within_iff.
    replace j with (i + (j - i))%nat by lia.
    rewrite <- nth_skipn. apply Hwin; lia.
  - intros [_ Hwin]. split.
    + apply within_iff, Hwin. lia.
    + intros j Hj Hj'. rewrite nth_skipn. apply within_iff, Hwin. lia.
Qed.

(** X7.  The search loop of [print_performance], on the error array and the
    tolerance it has computed, stops at the first index [i] whose window
    (the [min(50, len(errors) - i)] entries from [i] on) lies within the
    tolerance, and runs to the end without a result exactly when no index
    has such a window.  The loop only takes absolute values and compares
    them with the tolerance; it does no arithmetic that rounds. *)
Theorem search_loop_first_window (errors : list Qc) (tolerance : Qc) :
  match Metrics.find_steady errors tolerance (seq 0 (length errors)) with
  | Some i =>
      window_within errors tolerance i /\
      forall i', (i' < i)%nat -> ~ window_within errors tolerance i'
  | None => forall i, ~ window_within errors tolerance i
  end.
Proof.
  rewrite find_steady_find.
  destruct (find (steady_b errors tolerance) (seq 0 (length errors)))
    as [i | ] eqn:H.
  - destruct (find_seq_some _ _ _ _ H) as (Hr & Hp & Hfirst). split.
    + apply steady_b_window; [lia | exact Hp].
    + intros i' Hi' Hw. apply steady_b_window in Hw; [ | lia].
      rewrite Hfirst in Hw by lia. discriminate.
  - intros i Hw. pose proof Hw as [Hi _].
    apply steady_b_window in Hw; [ | exact Hi].
    rewrite (find_seq_none _ _ _ H) in Hw by lia. discriminate.
Qed.

(** ** A run that starts on its target *)

Lemma pid_update_at_rest (Kp Ki Kd : Qc) :
  PIDController.update (PIDController.init Kp Ki Kd (Q2Qc 25)) (Q2Qc 25)
                       Simulation.dt
  = Ok (PIDController.init Kp Ki Kd (Q2Qc 25), (0, 0, 0, 0)).
Proof.
  rewrite (pid_update_then _ _ _ Qc_0_lt_dt). cbv zeta.
  unfold PIDController.init.
  cbv beta iota delta [PIDController.Kp PIDController.Ki PIDController.Kd
                       PIDController.setpoint PIDController.integral
                       PIDController.prev_error].
  replace (Q2Qc 25 - Q2Qc 25) with 0 by (apply Qc_is_canon; reflexivity).
  replace (0 + 0 * Simulation.dt) with 0 by (apply Qc_is_canon; reflexivity).
  replace ((0 - 0) / Simulation.dt) with 0 by (apply Qc_is_canon; reflexivity).
  rewrite !Qcmult_0_r.
  replace (0 + 0 + 0) with 0 by (apply Qc_is_canon; reflexivity).
  reflexivity.
Qed.

Lemma plant_update_at_rest :
  TemperatureSystem.update plant0 0 Simulation.dt = Ok (plant0, Q2Qc 25).
Proof.
  rewrite plant_update_eq by discriminate. cbv zeta.
  match goal with
  | |- Ok (TemperatureSystem.mk ?t _ _ _, _) = _ =>
      replace t with (Q2Qc 25) by (apply Qc_is_canon; reflexivity)
  end.
  reflexivity.
Qed.

Lemma at_rest_body (Kp Ki Kd : Qc) (k : nat) (v : Simulation.locals) :
  at_rest Kp Ki Kd k v ->
  exists v', Simulation.body (Q2Qc 25) k v = Ok v' /\
             at_rest Kp Ki Kd (S k) v'.
Proof.
  intros (Hpid & Hsys & L1 & L2 & L3 & HT & HS & HP).
  unfold Simulation.body. rewrite Hpid, Hsys.
  change (TemperatureSystem.temp plant0) with (Q2Qc 25).
  rewrite pid_update_at_rest. cbn [bind].
  change (np_clip 0 0 (Q2Qc 100)) with (Q2Qc 0).
  rewrite plant_update_at_rest. cbn [bind].
  eexists. split; [reflexivity | ].
  unfold at_rest. series_simpl.
  rewrite !length_app. cbn [length].
  repeat split; try lia;
    apply Forall_app; split; try assumption; repeat constructor.
Qed.

Lemma Forall_eq_nth_error {A : Type} (a : A) (l : list A) (j : nat) :
  Forall (eq a) l -> (j < length l)%nat -> nth_error l j = Some a.
Proof.
  intros Hall Hj.
  destruct (nth_error l j) as [x | ] eqn:E;
    [ | apply nth_error_None in E; lia].
  rewrite Forall_forall in Hall. f_equal. symmetry.
  apply Hall. exact (nth_error_In _ _ E).
Qed.

(** X14.  A run whose target is the starting temperature [25] never moves:
    whatever the gains and the duration, every recorded temperature is [25]
    and every heater power is [0].  So index [0] is the first qualifying
    index, and still the report of such a run (of at least one step) says
    "not reached". *)
Theorem run_on_target_not_reported (Kp Ki Kd sim_time : Qc) :
  Q2Qc (1 # 10) <= sim_time ->
  exists d r,
    Simulation.run_simulation Kp Ki Kd (Q2Qc 25) sim_time = Ok d /\
    Forall (eq (Q2Qc 25)) (Data.temperatures d) /\
    Forall (eq 0) (Data.heater_powers d) /\
    first_settling d 0 /\
    Metrics.print_performance d = Ok r /\
    Metrics.settling_time r = Metrics.NotReached.
Proof.
  intros Hlong. pose proof (steps_at_least_one _ Hlong) as Hn.
  unfold Simulation.run_simulation.
  rewrite py_div_ok by discriminate. cbn [bind]. unfold Simulation.py_range.
  destruct (for_each_seq_inv (at_rest Kp Ki Kd)
              (Simulation.body (Q2Qc 25)) (at_rest_body Kp Ki Kd)
              (Z.to_nat (py_int (sim_time / Simulation.dt))) 0%nat
              (Simulation.mk (PIDController.init Kp Ki Kd (Q2Qc 25))
                             (TemperatureSystem.init (Q2Qc 25) (Q2Qc 25))
                             [] [] [] [] [] [] []))
    as (v & Hv & Hpid & Hsys & L1 & L2 & L3 & HT & HS & HP).
  { repeat split; constructor. }
  rewrite Hv. cbn [bind]. rewrite Nat.add_0_l in L1, L2, L3.
  set (d := Data.mk (Simulation.times v) (Simulation.temperatures v)
                    (Simulation.setpoints v) (Simulation.heater_powers v)
                    (Simulation.p_terms v) (Simulation.i_terms v)
                    (Simulation.d_terms v) Kp Ki Kd).
  assert (Hfirst : first_settling d 0).
  { split; [ | intros i' Hi'; lia].
    split; [cbn; lia | ]. intros j Hj. cbn [d Data.temperatures] in Hj.
    exists (Q2Qc 25), (Q2Qc 25), (Q2Qc 25). cbn [d Data.setpoints Data.temperatures].
    split; [apply Forall_eq_nth_error; [exact HS | lia] | ].
    split; [apply Forall_eq_nth_error; [exact HS | lia] | ].
    split; [apply Forall_eq_nth_error; [exact HT | lia] | ].
    discriminate. }
  destruct (print_performance_total d) as [r Hr]; cbn; try lia.
  exists d, r. split; [reflexivity | ].
  split; [exact HT | ]. split; [exact HP | ]. split; [exact Hfirst | ].
  split; [exact Hr | ].
  pose proof (print_performance_settling d r ltac:(cbn; lia) Hr) as H.
  destruct (Metrics.settling_time r) as [t | ]; [ | reflexivity].
  destruct H as (i & Hi & Hf & _). exfalso. apply Hi.
  exact (first_settling_unique _ _ _ Hf Hfirst).
Qed.

Lemma run_on_target_not_reported_witness :
  exists d r,
    Simulation.run_simulation (Q2Qc 5) (Q2Qc (1 # 10)) 1 (Q2Qc 25) (Q2Qc 300)
    = Ok d /\
    Metrics.print_performance d = Ok r /\
    Metrics.settling_time r = Metrics.NotReached.
Proof.
  destruct (run_on_target_not_reported
              (Q2Qc 5) (Q2Qc (1 # 10)) 1 (Q2Qc 300))
    as (d & r & Hd & _ & _ & _ & Hr & Hs).
  - discriminate.
  - exists d, r. split; [exact Hd | split; [exact Hr | exact Hs]].
Defined.

(** ** Runs of different durations *)

Lemma for_each_app (f : nat -> Simulation.locals -> result Simulation.locals)
      (l1 l2 : list nat) (v : Simulation.locals) :
  Simulation.for_each f (l1 ++ l2) v
  = (v1 <- Simulation.for_each f l1 v ;; Simulation.for_each f l2 v1).
Proof.
  revert v. induction l1 as [ | i l1 IH]; intros v; cbn; [reflexivity | ].
  destruct (f i v) as [v1 | e]; cbn; [apply IH | reflexivity].
Qed.

Lemma extends_refl (v : Simulation.locals) : extends v v.
Proof.
  unfold extends.
  repeat (split; [exists []; now rewrite app_nil_r | ]).
  exists []. now rewrite app_nil_r.
Qed.

Lemma extends_trans (v1 v2 v3 : Simulation.locals) :
  extends v1 v2 -> extends v2 v3 -> extends v1 v3.
Proof.
  intros ([a1 A1] & [a2 A2] & [a3 A3] & [a4 A4] & [a5 A5] & [a6 A6] & [a7 A7])
         ([b1 B1] & [b2 B2] & [b3 B3] & [b4 B4] & [b5 B5] & [b6 B6] & [b7 B7]).
  unfold extends. do 6 (try split);
    [ exists (a1 ++ b1); rewrite B1, A1
    | exists (a2 ++ b2); rewrite B2, A2
    | exists (a3 ++ b3); rewrite B3, A3
    | exists (a4 ++ b4); rewrite B4, A4
    | exists (a5 ++ b5); rewrite B5, A5
    | exists (a6 ++ b6); rewrite B6, A6
    | exists (a7 ++ b7); rewrite B7, A7 ];
    now rewrite app_assoc.
Qed.

Lemma body_extends (target_temp : Qc) (i : nat) (v v' : Simulation.locals) :
  Simulation.body target_temp i v = Ok v' -> extends v v'.
Proof.
  unfold Simulation.body.
  destruct (PIDController.update _ _ _) as [[pid' [[[output P] I_] D]] | e];
    cbn [bind]; [ | discriminate].
  destruct (TemperatureSystem.update _ _ _) as [[system' new_temp] | e];
    cbn [bind]; [ | discriminate].
  intros [= <-]. unfold extends. series_simpl.
  repeat (split; [eexists; reflexivity | ]). eexists; reflexivity.
Qed.

Lemma for_each_extends (target_temp : Qc) (range : list nat)
      (v v' : Simulation.locals) :
  Simulation.for_each (Simulation.body target_temp) range v = Ok v' ->
  extends v v'.
Proof.
  revert v. induction range as [ | i rest IH]; intros v;
    cbn [Simulation.for_each].
  - intros [= <-]. apply extends_refl.
  - destruct (Simulation.body target_temp i v) as [v1 | e] eqn:E;
      cbn [bind]; [ | discriminate].
    intros H. apply extends_trans with v1;
      [exact (body_extends _ _ _ _ E) | exact (IH _ H)].
Qed.

Lemma firstn_length_app {A : Type} (l s : list A) :
  firstn (length l) (l ++ s) = l.
Proof.
  rewrite firstn_app, firstn_all, Nat.sub_diag. cbn. apply app_nil_r.
Qed.

Lemma steps_monotone (t1 t2 : Qc) :
  t1 <= t2 ->
  (Z.to_nat (py_int (t1 / Simulation.dt))
   <= Z.to_nat (py_int (t2 / Simulation.dt)))%nat.
Proof.
  intros H. rewrite !py_int_floor_steps.
  assert (H1 : (Qfloor (t1 / Simulation.dt)%Qc
                <= Qfloor (t2 / Simulation.dt)%Qc)%Z).
  { apply Qfloor_resp_le. unfold Simulation.dt. qc2q. lra. }
  lia.
Qed.

(** X15.  A longer run continues a shorter one: with the same gains and
    target, each of the seven series of the run of duration [t1] is the
    beginning of the same series of the run of duration [t2 >= t1].  What is
    recorded at a step does not depend on how long the simulation goes on. *)
Theorem run_prefix (Kp Ki Kd target_temp t1 t2 : Qc) :
  t1 <= t2 ->
  exists d1 d2,
    Simulation.run_simulation Kp Ki Kd target_temp t1 = Ok d1 /\
    Simulation.run_simulation Kp Ki Kd target_temp t2 = Ok d2 /\
    Data.times d1 = firstn (length (Data.times d1)) (Data.times d2) /\
    Data.temperatures d1
    = firstn (length (Data.temperatures d1)) (Data.temperatures d2) /\
    Data.setpoints d1
    = firstn (length (Data.setpoints d1)) (Data.setpoints d2) /\
    Data.heater_powers d1
    = firstn (length (Data.heater_powers d1)) (Data.heater_powers d2) /\
    Data.p_terms d1 = firstn (length (Data.p_terms d1)) (Data.p_terms d2) /\
    Data.i_terms d1 = firstn (length (Data.i_terms d1)) (Data.i_terms d2) /\
    Data.d_terms d1 = firstn (length (Data.d_terms d1)) (Data.d_terms d2).
Proof.
  intros Hle. pose proof (steps_monotone _ _ Hle) as Hn.
  unfold Simulation.run_simulation.
  rewrite !py_div_ok by discriminate. cbn [bind]. unfold Simulation.py_range.
  set (n1 := Z.to_nat (py_int (t1 / Simulation.dt))) in *.
  set (n2 := Z.to_nat (py_int (t2 / Simulation.dt))) in *.
  replace n2 with (n1 + (n2 - n1))%nat by lia.
  rewrite seq_app, for_each_app.
  destruct (for_each_seq_inv (loop_inv Kp Ki Kd target_temp)
              (Simulation.body target_temp)
              (loop_inv_body Kp Ki Kd target_temp) n1 0%nat _
              (loop_inv_init Kp Ki Kd target_temp))
    as (v1 & Hv1 & Hinv1).
  rewrite Hv1. cbn [bind].
  destruct (for_each_seq_inv (loop_inv Kp Ki Kd target_temp)
              (Simulation.body target_temp)
              (loop_inv_body Kp Ki Kd target_temp) (n2 - n1) (0 + n1)%nat v1
              Hinv1)
    as (v2 & Hv2 & _).
  rewrite Hv2. cbn [bind].
  destruct (for_each_extends _ _ _ _ Hv2)
    as ([s1 E1] & [s2 E2] & [s3 E3] & [s4 E4] & [s5 E5] & [s6 E6] & [s7 E7]).
  do 2 eexists. split; [reflexivity | ]. split; [reflexivity | ].
  series_simpl. rewrite E1, E2, E3, E4, E5, E6, E7.
  rewrite !firstn_length_app. repeat split.
Qed.

Lemma run_prefix_witness :
  exists d1 d2,
    Simulation.run_simulation (Q2Qc 5) (Q2Qc (1 # 10)) 1 (Q2Qc 200)
                              (Q2Qc (1 # 10)) = Ok d1 /\
    Simulation.run_simulation (Q2Qc 5) (Q2Qc (1 # 10)) 1 (Q2Qc 200)
                              (Q2Qc 300) = Ok d2 /\
    Data.temperatures d1
    = firstn (length (Data.temperatures d1)) (Data.temperatures d2).
Proof.
  destruct (run_prefix (Q2Qc 5) (Q2Qc (1 # 10)) 1 (Q2Qc 200)
                       (Q2Qc (1 # 10)) (Q2Qc 300))
    as (d1 & d2 & H1 & H2 & _ & HT & _).
  - discriminate.
  - exists d1, d2. split; [exact H1 | split; [exact H2 | exact HT]].
Defined.

(** ** The font selection *)

Module FontProps.
Import String.
Local Open Scope string_scope.

Lemma installed_iff (available_fonts : list string) (font : string) :
  Fonts.installed available_fonts font = true <-> In font available_fonts.
Proof.
  unfold Fonts.installed. rewrite existsb_exists. split.
  - intros (x & Hin & E). apply String.eqb_eq in E. now subst.
  - intros Hin. exists font. split; [exact Hin | apply String.eqb_refl].
Qed.

(** The loop with [break] returns the first installed candidate, and the
    name it started with when none is installed. *)
Lemma first_installed_spec (candidates available_fonts : list string)
      (font_name : string) :
  (exists before after,
      candidates
      = (before
           ++ Fonts.first_installed candidates available_fonts font_name
           :: after)%list /\
      In (Fonts.first_installed candidates available_fonts font_name)
         available_fonts /\
      forall font, In font before -> ~ In font available_fonts) \/
  ((forall font, In font candidates -> ~ In font available_fonts) /\
   Fonts.first_installed candidates available_fonts font_name = font_name).
Proof.
  induction candidates as [ | font rest IH]; cbn [Fonts.first_installed].
  - right. split; [intros font [] | reflexivity].
  - destruct (Fonts.installed available_fonts font) eqn:E.
    + left. exists nil, rest. split; [reflexivity | ].
      split; [now apply installed_iff | intros f []].
    + assert (Hno : ~ In font available_fonts).
      { intros Hin. apply installed_iff in Hin. congruence. }
      destruct IH as [(before & after & Hc & Hin & Hfirst) | [Hnone Hd]].
      * left. exists (font :: before), after.
        split; [cbn; now rewrite <- Hc | ].
        split; [exact Hin | ].
        intros f [<- | Hf]; [exact Hno | now apply Hfirst].
      * right. split; [ | exact Hd].
        intros f [<- | Hf]; [exact Hno | now apply Hnone].
Qed.

(** X13.  [setup_korean_font] chooses "Malgun Gothic" on Windows and
    "AppleGothic" on macOS without looking at the installed fonts.  On any
    other system it chooses the first of "NanumGothic", "Noto Sans CJK KR",
    "Noto Sans KR", "DejaVu Sans" that is installed (every candidate before
    the chosen one is not installed), and "NanumGothic" when none of them is
    installed, although that font is then missing. *)
Theorem setup_korean_font_choice (system : string)
        (available_fonts : list string) :
  (system = "Windows" ->
   Fonts.setup_korean_font system available_fonts = "Malgun Gothic") /\
  (system = "Darwin" ->
   Fonts.setup_korean_font system available_fonts = "AppleGothic") /\
  (system <> "Windows" -> system <> "Darwin" ->
   (exists before after,
       Fonts.font_candidates
       = (before ++ Fonts.setup_korean_font system available_fonts
                 :: after)%list /\
       In (Fonts.setup_korean_font system available_fonts) available_fonts /\
       forall font, In font before -> ~ In font available_fonts) \/
   ((forall font, In font Fonts.font_candidates ->
                  ~ In font available_fonts) /\
    Fonts.setup_korean_font system available_fonts = "NanumGothic")).
Proof.
  split; [ | split].
  - intros ->. reflexivity.
  - intros ->. reflexivity.
  - intros Hw Hd. unfold Fonts.setup_korean_font.
    apply String.eqb_neq in Hw, Hd. rewrite Hw, Hd.
    exact (first_installed_spec Fonts.font_candidates available_fonts
                                "NanumGothic").
Qed.

(** An installation with only the last two candidates gets the earlier of
    the two. *)
Example setup_korean_font_linux :
  Fonts.setup_korean_font "Linux" ("DejaVu Sans" :: "Noto Sans KR" :: nil)
  = "Noto Sans KR".
Proof. reflexivity. Qed.

End FontProps.
